(** * Streaming speech-to-text service: commit stabilizer, speech activity
      tracker and session orchestrator

    Shallow embedding of [local_whisper_svc] (local_agreement.py, vad.py,
    protocol.py, server.py, and the pure helpers of whisper_engine.py) and
    the properties of its specification. *)

From Stdlib Require Import ZArith QArith String Ascii Strings.Byte Lia.
From stdpp Require Import base option list gmap.

Close Scope Q_scope.
Open Scope Z_scope.

(** ** Python values

    A Python [str] is a sequence of Unicode code points; a code point is a
    natural number.  [len] is Python's [len] (an [int]). *)

Abbreviation char := N (only parsing).
Abbreviation str := (list N) (only parsing).

(** An ASCII literal as a Python [str]. *)
Definition py (s : string) : str :=
  map N_of_ascii (list_ascii_of_string s).

Definition len {A} (l : list A) : Z := Z.of_nat (length l).

Definition SPACE : char := 32%N.

(** [str.isspace] on one character: the code points [str.rstrip()] strips. *)
Definition isspace (c : char) : bool :=
  ((9 <=? c) && (c <=? 13) || (28 <=? c) && (c <=? 32)
   || (c =? 133) || (c =? 160) || (c =? 5760)
   || (8192 <=? c) && (c <=? 8202)
   || (c =? 8232) || (c =? 8233) || (c =? 8239) || (c =? 8287)
   || (c =? 12288))%N.

(** A slice bound [i] of a sequence of length [n]: negative bounds count
    from the end, and every bound is clamped into [0..n]. *)
Definition slice_index (i : Z) (n : nat) : nat :=
  if i <? 0 then Z.to_nat (Z.max 0 (i + Z.of_nat n))
  else Z.to_nat (Z.min i (Z.of_nat n)).

(** [l[i:]] and [l[:j]]. *)
Definition slice_from {A} (i : Z) (l : list A) : list A :=
  drop (slice_index i (length l)) l.
Definition slice_to {A} (j : Z) (l : list A) : list A :=
  take (slice_index j (length l)) l.

(** [s.rfind(c)] for a one-character needle: the highest index holding [c],
    or [-1]. *)
Fixpoint rfind_from (c : char) (s : str) (i : Z) (found : Z) : Z :=
  match s with
  | [] => found
  | x :: s' => rfind_from c s' (i + 1) (if (x =? c)%N then i else found)
  end.
Definition rfind (s : str) (c : char) : Z := rfind_from c s 0 (-1).

(** [s.rstrip()]: drop the trailing run of whitespace. *)
Fixpoint rstrip (s : str) : str :=
  match s with
  | [] => []
  | c :: s' =>
      match rstrip s' with
      | [] => if isspace c then [] else [c]
      | r => c :: r
      end
  end.

(** [s.endswith(ws)] for some whitespace character [ws]. *)
Definition ends_with_whitespace (s : str) : bool :=
  match last s with
  | Some c => isspace c
  | None => false
  end.

(** [" " in s]. *)
Definition contains_space (s : str) : bool :=
  existsb (fun c => (c =? SPACE)%N) s.

(** [min(len(s) for s in strings)] on a non-empty list. *)
Definition min_length (first : str) (rest : list str) : nat :=
  foldr (fun s m => Nat.min (length s) m) (length first) rest.

(** ** local_agreement.py *)

Module AgreementResult.
Record t := mk {
  text : str;
  is_final : bool;
  committed_prefix : str;
}.
End AgreementResult.

Module LocalAgreement.

(** The attributes of a [LocalAgreement] object. *)
Record t := mk {
  k : Z;
  n : Z;
  min_new_chars : Z;
  history : list str;
  committed_prefix : str;
}.

(** [LocalAgreement(k, n, min_new_chars)]. *)
Definition init (k n min_new_chars : Z) : t :=
  mk k n min_new_chars [] [].

Definition set_history (self : t) (h : list str) : t :=
  mk (k self) (n self) (min_new_chars self) h (committed_prefix self).
Definition set_committed_prefix (self : t) (p : str) : t :=
  mk (k self) (n self) (min_new_chars self) (history self) p.

(** The [for i in range(min_len)] loop of [_longest_common_prefix]:
    [remaining] iterations are left, the next index is [i]. *)
Fixpoint lcp_loop (strings : list str) (i remaining prefix_len : nat) : nat :=
  match remaining with
  | O => prefix_len
  | S remaining' =>
      let char := (strings !! 0%nat) ≫= (.!! i) in
      if forallb (fun s : str => bool_decide (s !! i = char)) strings
      then lcp_loop strings (S i) remaining' (S i)
      else prefix_len
  end.

Definition _longest_common_prefix (strings : list str) : str :=
  match strings with
  | [] => []
  | [s] => s
  | first :: rest =>
      let min_len := min_length first rest in
      let prefix_len := lcp_loop strings 0 min_len 0 in
      take prefix_len first
  end.

Definition _trim_to_word_boundary (text : str) : str :=
  match text with
  | [] => text
  | _ =>
      let last_space := rfind text SPACE in
      if last_space =? -1 then text
      else rstrip (slice_to (last_space + 1) text)
  end.

Definition process (self : t) (text : str) : AgreementResult.t * t :=
  let appended := history self ++ [text] in
  let self := set_history self
                (if len appended >? k self then tail appended else appended) in
  if len (history self) <? n self then
    (AgreementResult.mk text false (committed_prefix self), self)
  else
    let lcp := _longest_common_prefix (slice_from (- n self) (history self)) in
    let lcp_trimmed := _trim_to_word_boundary lcp in
    if len lcp_trimmed >? len (committed_prefix self) + min_new_chars self then
      (AgreementResult.mk lcp_trimmed true lcp_trimmed,
       set_committed_prefix self lcp_trimmed)
    else
      (AgreementResult.mk text false (committed_prefix self), self).

Definition force_commit (self : t) : option AgreementResult.t * t :=
  match last (history self) with
  | None => (None, self)
  | Some text =>
      if len text <=? len (committed_prefix self) then (None, self)
      else
        (Some (AgreementResult.mk text true text),
         set_history (set_committed_prefix self text) [])
  end.

Definition reset (self : t) : t :=
  set_committed_prefix (set_history self []) [].

(** A call made on a stabilizer, and the state after a sequence of calls. *)
Inductive call :=
| Process (text : str)
| ForceCommit
| Reset.

Definition step (self : t) (c : call) : t :=
  match c with
  | Process text => snd (process self text)
  | ForceCommit => snd (force_commit self)
  | Reset => reset self
  end.

Definition run (self : t) (calls : list call) : t :=
  foldl step self calls.

Definition is_reset (c : call) : bool :=
  match c with Reset => true | _ => false end.

End LocalAgreement.

(** ** Exceptions

    A call either returns a value or raises; the state it leaves behind is
    returned next to it in both cases. *)

Inductive exn :=
| RuntimeError      (** raised by the code itself: model not loaded *)
| ValueError        (** raised by NumPy or [range] on a bad argument *)
| AttributeError    (** attribute lookup on a value that lacks it *)
| UnicodeDecodeError
| ExternalError.    (** raised inside an external collaborator *)

Inductive result (A : Type) :=
| Returned (a : A)
| Raised (e : exn).
Arguments Returned {A} a.
Arguments Raised {A} e.

(** ** vad.py

    Speech probabilities, thresholds and confidences are Python floats; they
    are modelled by rationals, which keeps every comparison exact. *)

Module VADEvent.
Inductive kind := speech_start | speech_end | speech.
Record t := mk {
  event_type : kind;
  timestamp_ms : Z;
  confidence : Q;
}.
Definition is_speech_start (e : t) : bool :=
  match event_type e with speech_start => true | _ => false end.
Definition is_speech_end (e : t) : bool :=
  match event_type e with speech_end => true | _ => false end.
End VADEvent.

Module SileroVAD.
Section WithModel.

(** The Silero network, an external collaborator: it carries recurrent
    state, [model(audio, sample_rate)] yields a probability or raises, and
    [reset_states()] clears the recurrent state. *)
Context {model_state : Type}.
Variable model_call : model_state -> list Q -> Z -> option Q * model_state.
Variable model_reset_states : model_state -> model_state.

(** The attributes of a [SileroVAD] object.  The two callback slots are
    left out: nothing in the service registers a callback, so both stay
    [None]. *)
Record t := mk {
  threshold : Q;
  min_speech_ms : Z;
  min_silence_ms : Z;
  sample_rate : Z;
  model : option model_state;
  _is_speaking : bool;
  _speech_start_ms : option Z;
  _silence_start_ms : option Z;
  _current_ms : Z;
}.

(** [SileroVAD(threshold, min_speech_ms, min_silence_ms, sample_rate)]. *)
Definition init (threshold : Q) (min_speech_ms min_silence_ms sample_rate : Z) : t :=
  mk threshold min_speech_ms min_silence_ms sample_rate None false None None 0.

Definition set_model (self : t) (m : option model_state) : t :=
  mk (threshold self) (min_speech_ms self) (min_silence_ms self) (sample_rate self)
     m (_is_speaking self) (_speech_start_ms self) (_silence_start_ms self)
     (_current_ms self).
Definition set_is_speaking (self : t) (b : bool) : t :=
  mk (threshold self) (min_speech_ms self) (min_silence_ms self) (sample_rate self)
     (model self) b (_speech_start_ms self) (_silence_start_ms self)
     (_current_ms self).
Definition set_speech_start_ms (self : t) (v : option Z) : t :=
  mk (threshold self) (min_speech_ms self) (min_silence_ms self) (sample_rate self)
     (model self) (_is_speaking self) v (_silence_start_ms self)
     (_current_ms self).
Definition set_silence_start_ms (self : t) (v : option Z) : t :=
  mk (threshold self) (min_speech_ms self) (min_silence_ms self) (sample_rate self)
     (model self) (_is_speaking self) (_speech_start_ms self) v
     (_current_ms self).
Definition set_current_ms (self : t) (v : Z) : t :=
  mk (threshold self) (min_speech_ms self) (min_silence_ms self) (sample_rate self)
     (model self) (_is_speaking self) (_speech_start_ms self) (_silence_start_ms self)
     v.

(** [load_model]: the network is fetched once; [loaded] is what
    [torch.hub.load] hands back. *)
Definition load_model (self : t) (loaded : model_state) : t :=
  match model self with
  | Some _ => self
  | None => set_model self (Some loaded)
  end.

(** [speech_prob >= self.threshold]. *)
Definition is_speech (self : t) (speech_prob : Q) : bool :=
  Qle_bool (threshold self) speech_prob.

(** The hysteresis of [process_chunk], from [events = []] to the end of
    the method, on the probability and chunk duration computed above it. *)
Definition track (self : t) (speech_prob : Q) (chunk_ms : Z) : list VADEvent.t * t :=
  let '(events, self) :=
    if is_speech self speech_prob then
      let self := set_silence_start_ms self None in
      let '(events, self) :=
        if negb (_is_speaking self) then
          let self :=
            match _speech_start_ms self with
            | None => set_speech_start_ms self (Some (_current_ms self))
            | Some _ => self
            end in
          let start := default 0 (_speech_start_ms self) in
          let speech_duration := _current_ms self - start + chunk_ms in
          if speech_duration >=? min_speech_ms self then
            ([VADEvent.mk VADEvent.speech_start start speech_prob],
             set_is_speaking self true)
          else ([], self)
        else ([], self) in
      (events ++ [VADEvent.mk VADEvent.speech (_current_ms self) speech_prob], self)
    else
      let self := set_speech_start_ms self None in
      if _is_speaking self then
        let self :=
          match _silence_start_ms self with
          | None => set_silence_start_ms self (Some (_current_ms self))
          | Some _ => self
          end in
        let start := default 0 (_silence_start_ms self) in
        let silence_duration := _current_ms self - start + chunk_ms in
        if silence_duration >=? min_silence_ms self then
          ([VADEvent.mk VADEvent.speech_end (_current_ms self) (1 - speech_prob)%Q],
           set_silence_start_ms (set_is_speaking self false) None)
        else ([], self)
      else ([], self) in
  (events, set_current_ms self (_current_ms self + chunk_ms)).

(** [int(len(audio) / self.sample_rate * 1000)], in exact arithmetic
    (truncation toward zero, [ZeroDivisionError] left aside: the rate is
    16000 throughout the service). *)
Definition chunk_duration_ms (self : t) (audio : list Q) : Z :=
  Z.quot (len audio * 1000) (sample_rate self).

Definition process_chunk (self : t) (audio : list Q) : result (list VADEvent.t) * t :=
  match model self with
  | None => (Raised RuntimeError, self)
  | Some m =>
      let chunk_ms := chunk_duration_ms self audio in
      match model_call m audio (sample_rate self) with
      | (None, m') => (Raised ExternalError, set_model self (Some m'))
      | (Some speech_prob, m') =>
          let '(events, self) := track (set_model self (Some m')) speech_prob chunk_ms in
          (Returned events, self)
      end
  end.

(** The chunks [audio[i:i + chunk_samples]] for [i] in
    [range(0, len(audio), chunk_samples)], the last one zero-padded. *)
Fixpoint chunks (fuel chunk_samples : nat) (audio : list Q) : list (list Q) :=
  match fuel, audio with
  | O, _ | _, [] => []
  | S fuel', _ =>
      let chunk := take chunk_samples audio in
      (chunk ++ replicate (chunk_samples - length chunk) 0%Q)
        :: chunks fuel' chunk_samples (drop chunk_samples audio)
  end.

(** The loop of [process_audio] over the chunks still to be processed. *)
Fixpoint process_chunks (self : t) (todo : list (list Q)) (all_events : list VADEvent.t)
  : result (list VADEvent.t) * t :=
  match todo with
  | [] => (Returned all_events, self)
  | chunk :: todo' =>
      match process_chunk self chunk with
      | (Raised e, self') => (Raised e, self')
      | (Returned events, self') => process_chunks self' todo' (all_events ++ events)
      end
  end.

Definition process_audio (self : t) (audio : list Q) (chunk_ms : Z)
  : result (list VADEvent.t) * t :=
  let chunk_samples := Z.quot (sample_rate self * chunk_ms) 1000 in
  if chunk_samples =? 0 then (Raised ValueError, self)
  else if chunk_samples <? 0 then (Returned [], self)
  else process_chunks self (chunks (length audio) (Z.to_nat chunk_samples) audio) [].

Definition reset (self : t) : t :=
  let self := set_is_speaking self false in
  let self := set_speech_start_ms self None in
  let self := set_silence_start_ms self None in
  let self := set_current_ms self 0 in
  match model self with
  | Some m => set_model self (Some (model_reset_states m))
  | None => self
  end.

Definition is_speaking (self : t) : bool := _is_speaking self.

(** A stream of (probability, chunk duration) pairs fed to the tracker one
    chunk at a time: the state reached, and the events of each chunk. *)
Definition feed (self : t) (stream : list (Q * Z)) : t :=
  foldl (fun s c => snd (track s c.1 c.2)) self stream.

(** The tracker as [__init__] and [reset] leave it. *)
Definition fresh (self : t) : Prop :=
  _is_speaking self = false /\ _speech_start_ms self = None
  /\ _silence_start_ms self = None /\ _current_ms self = 0.

(** The time a run of chunks spans, and whether a chunk is speech-like
    ([probability >= threshold]). *)
Definition duration (stream : list (Q * Z)) : Z :=
  foldr (fun c acc => c.2 + acc) 0 stream.
Definition speech_like (self : t) (c : Q * Z) : bool := is_speech self c.1.

End WithModel.
End SileroVAD.

(** ** protocol.py *)

Module WordInfo.
Record t := mk {
  word : str;
  start : Q;
  end_ : Q;
  confidence : Q;
}.
End WordInfo.

Module StartCommand.
Record t := mk {
  session_id : str;
  source_lang : str;
  auto_detect_langs : list str;
  phrase_hints : list str;
  initial_prompt : str;
}.
End StartCommand.

Module AudioCommand.
Record t := mk {
  session_id : str;
  pcm_b64 : str;
}.
End AudioCommand.

Module StopCommand.
Record t := mk {
  session_id : str;
}.
End StopCommand.

Inductive Command :=
| Start (c : StartCommand.t)
| Audio (c : AudioCommand.t)
| Stop (c : StopCommand.t).

(** The response objects; [to_json] is the wire encoding and is left out. *)
Inductive Response :=
| PartialResponse (session_id text language : str) (confidence : Q)
| FinalResponse (session_id text language : str) (words : list WordInfo.t)
    (committed_prefix : str) (tts_final : bool)
| ErrorResponse (session_id error : str)
| ReadyResponse (session_id : str).

(** The session a command is addressed to. *)
Definition addressed_session (c : Command) : str :=
  match c with
  | Start c => StartCommand.session_id c
  | Audio c => AudioCommand.session_id c
  | Stop c => StopCommand.session_id c
  end.

Definition is_error (r : Response) : bool :=
  match r with ErrorResponse _ _ => true | _ => false end.

(** A JSON value as [json.loads] returns it. *)
#[warnings="-register-all"]
Inductive json :=
| JNull
| JBool (b : bool)
| JInt (z : Z)
| JFloat (q : Q)
| JStr (s : str)
| JArr (items : list json)
| JObj (items : list (str * json)).

(** What [json.loads(line)] yields.  For an object, the keys the protocol
    reads are given one by one, [None] when the key is absent; [cmd] may hold
    any JSON value, the other keys hold values of the type their dataclass
    field is annotated with. *)
Module Data.
Record t := mk {
  cmd : option json;
  session_id : option str;
  source_lang : option str;
  auto_detect_langs : option (list str);
  phrase_hints : option (list str);
  initial_prompt : option str;
  pcm_b64 : option str;
}.
End Data.

Inductive loads :=
| JSONDecodeError
| NotAnObject (v : json)
| Object (data : Data.t).

(** [cmd == name] for the value of [data.get("cmd")]. *)
Definition cmd_is (cmd : option json) (name : str) : bool :=
  match cmd with
  | Some (JStr s) => bool_decide (s = name)
  | _ => false
  end.

(** [parse_command], on the outcome of [json.loads(line)].  [KeyError] and
    [JSONDecodeError] are caught and give [None]; [.get] on a value that is
    not a dict raises [AttributeError], which is not caught. *)
Definition parse_command (line : loads) : result (option Command) :=
  match line with
  | JSONDecodeError => Returned None
  | NotAnObject _ => Raised AttributeError
  | Object data =>
      let cmd := Data.cmd data in
      if cmd_is cmd (py "START") then
        match Data.session_id data with
        | None => Returned None
        | Some session_id =>
            Returned (Some (Start (StartCommand.mk
              session_id
              (default (py "en-US") (Data.source_lang data))
              (default [] (Data.auto_detect_langs data))
              (default [] (Data.phrase_hints data))
              (default [] (Data.initial_prompt data)))))
        end
      else if cmd_is cmd (py "AUDIO") then
        match Data.session_id data, Data.pcm_b64 data with
        | Some session_id, Some pcm_b64 =>
            Returned (Some (Audio (AudioCommand.mk session_id pcm_b64)))
        | _, _ => Returned None
        end
      else if cmd_is cmd (py "STOP") then
        match Data.session_id data with
        | Some session_id => Returned (Some (Stop (StopCommand.mk session_id)))
        | None => Returned None
        end
      else Returned None
  end.

(** ** whisper_engine.py *)

Module TranscriptionResult.
Record t := mk {
  text : str;
  language : str;
  language_confidence : Q;
  words : list WordInfo.t;
  duration_seconds : Q;
}.
End TranscriptionResult.

(** [np.frombuffer(pcm_bytes, dtype=np.int16)]: little-endian signed 16-bit
    samples; a buffer of odd length raises [ValueError]. *)
Fixpoint frombuffer_int16 (pcm_bytes : list byte) : option (list Z) :=
  match pcm_bytes with
  | [] => Some []
  | [_] => None
  | lo :: hi :: rest =>
      let u := Z.of_N (Byte.to_N lo) + 256 * Z.of_N (Byte.to_N hi) in
      let v := if u <? 32768 then u else u - 65536 in
      cons v <$> frombuffer_int16 rest
  end.

(** [pcm_to_float32]: every sample divided by 32768 (exact in float32). *)
Definition pcm_to_float32 (pcm_bytes : list byte) : option (list Q) :=
  map (fun v => Qmake v 32768) <$> frombuffer_int16 pcm_bytes.

(** ** server.py *)

Module Session.
Record t := mk {
  session_id : str;
  source_lang : str;
  auto_detect_langs : list str;
  phrase_hints : list str;
  initial_prompt : str;
  agreement : LocalAgreement.t;
  audio_buffer : list byte;
  is_active : bool;
  last_activity_ms : Z;
}.

Definition set_agreement (s : t) (a : LocalAgreement.t) : t :=
  mk (session_id s) (source_lang s) (auto_detect_langs s) (phrase_hints s)
     (initial_prompt s) a (audio_buffer s) (is_active s) (last_activity_ms s).
Definition set_audio_buffer (s : t) (b : list byte) : t :=
  mk (session_id s) (source_lang s) (auto_detect_langs s) (phrase_hints s)
     (initial_prompt s) (agreement s) b (is_active s) (last_activity_ms s).
Definition set_is_active (s : t) (b : bool) : t :=
  mk (session_id s) (source_lang s) (auto_detect_langs s) (phrase_hints s)
     (initial_prompt s) (agreement s) (audio_buffer s) b (last_activity_ms s).
End Session.

(** [s.split("-")[0]]: the text before the first hyphen. *)
Fixpoint before_hyphen (s : str) : str :=
  match s with
  | [] => []
  | c :: s' => if (c =? 45)%N then [] else c :: before_hyphen s'
  end.

(** [x or None] on a string. *)
Definition or_None (s : str) : option str :=
  match s with [] => None | _ => Some s end.

Module WhisperServer.
Section WithCollaborators.

(** The external collaborators: the Silero network behind the activity
    tracker, [WhisperEngine.transcribe] ([None] when it raises),
    [base64.b64decode] (the exception text when it raises), and the three
    agreement settings [_handle_start] reads from the environment. *)
Context {model_state : Type}.
Variable model_call : model_state -> list Q -> Z -> option Q * model_state.
Variable model_reset_states : model_state -> model_state.
Variable transcribe : list Q -> option str -> option str -> option TranscriptionResult.t.
Variable b64decode : str -> list byte + str.
Variables WHISPER_AGREEMENT_K WHISPER_AGREEMENT_N WHISPER_AGREEMENT_MIN_CHARS : Z.
Variable VAD_THRESHOLD : Q.
Variables VAD_MIN_SPEECH_MS VAD_MIN_SILENCE_MS : Z.

(** The attributes of a started [WhisperServer] the handlers use: one
    activity tracker for the whole server, and the sessions by id. *)
Record t := mk {
  vad : @SileroVAD.t model_state;
  sessions : gmap (list N) Session.t;
}.

Definition _chunk_samples : Z := 16000 / 4.
Definition _min_transcribe_samples : Z := 16000.
Definition _max_transcribe_samples : Z := 16000 * 30.

Definition set_vad (self : t) (v : @SileroVAD.t model_state) : t :=
  mk v (sessions self).
Definition set_sessions (self : t) (m : gmap (list N) Session.t) : t :=
  mk (vad self) m.

(** A session object is shared between the registry and the handler that
    looked it up: an assignment to one of its attributes is an update of
    the registry entry. *)
Definition store (self : t) (key : str) (session : Session.t) : t :=
  set_sessions self (<[key := session]> (sessions self)).

(** [start]: the tracker is built with the environment's settings, its
    network loaded, and no session is registered yet. *)
Definition start (loaded : model_state) : t :=
  mk (SileroVAD.load_model
        (SileroVAD.init VAD_THRESHOLD VAD_MIN_SPEECH_MS VAD_MIN_SILENCE_MS 16000)
        loaded)
     ∅.

Definition word_infos (words : list WordInfo.t) : list WordInfo.t :=
  map (fun w => WordInfo.mk (WordInfo.word w) (WordInfo.start w) (WordInfo.end_ w)
                  (WordInfo.confidence w)) words.

(** [None if session.source_lang == "auto" else session.source_lang.split("-")[0]]. *)
Definition language_of (session : Session.t) : option str :=
  if bool_decide (Session.source_lang session = py "auto") then None
  else Some (before_hyphen (Session.source_lang session)).

(** The bytes handed to the engine: the whole buffer, or its last
    [_max_transcribe_samples] samples. *)
Definition transcribe_window (audio_buffer : list byte) : list byte :=
  let max_bytes := _max_transcribe_samples * 2 in
  if len audio_buffer >? max_bytes then slice_from (- max_bytes) audio_buffer
  else audio_buffer.

Definition _handle_start (self : t) (cmd : StartCommand.t) : result (option Response) * t :=
  let agreement :=
    LocalAgreement.init WHISPER_AGREEMENT_K WHISPER_AGREEMENT_N
      WHISPER_AGREEMENT_MIN_CHARS in
  let session :=
    Session.mk (StartCommand.session_id cmd) (StartCommand.source_lang cmd)
      (StartCommand.auto_detect_langs cmd) (StartCommand.phrase_hints cmd)
      (StartCommand.initial_prompt cmd) agreement [] true 0 in
  (Returned (Some (ReadyResponse (StartCommand.session_id cmd))),
   store self (StartCommand.session_id cmd) session).

Definition _handle_audio (self : t) (cmd : AudioCommand.t) : result (option Response) * t :=
  let sid := AudioCommand.session_id cmd in
  match sessions self !! sid with
  | None => (Returned (Some (ErrorResponse sid (py "Session not found"))), self)
  | Some session =>
  if negb (Session.is_active session) then (Returned None, self) else
  match b64decode (AudioCommand.pcm_b64 cmd) with
  | inr e =>
      (Returned (Some (ErrorResponse sid (py "Invalid base64 audio: " ++ e))), self)
  | inl pcm_bytes =>
  let session := Session.set_audio_buffer session (Session.audio_buffer session ++ pcm_bytes) in
  let self := store self sid session in
  let buffer_samples := len (Session.audio_buffer session) / 2 in
  if buffer_samples <? _min_transcribe_samples then (Returned None, self) else
  let transcribe_buffer := transcribe_window (Session.audio_buffer session) in
  match pcm_to_float32 transcribe_buffer with
  | None => (Raised ValueError, self)
  | Some audio =>
  match SileroVAD.process_audio model_call (vad self) (slice_from (- _chunk_samples) audio) 32 with
  | (Raised e, vad') => (Raised e, set_vad self vad')
  | (Returned vad_events, vad') =>
  let self := set_vad self vad' in
  let is_silence :=
    negb (SileroVAD.is_speaking (vad self))
    && existsb VADEvent.is_speech_end vad_events in
  let lang := language_of session in
  match transcribe audio lang (or_None (Session.initial_prompt session)) with
  | None => (Raised ExternalError, self)
  | Some result =>
  let '(commit_result, agreement) :=
    if is_silence then LocalAgreement.force_commit (Session.agreement session)
    else (None, Session.agreement session) in
  let session := Session.set_agreement session agreement in
  let self := store self sid session in
  match commit_result with
  | Some (AgreementResult.mk ((_ :: _) as text) _ committed_prefix) =>
      let session := Session.set_audio_buffer session [] in
      let self := store self sid session in
      let self := set_vad self (SileroVAD.reset model_reset_states (vad self)) in
      (Returned (Some (FinalResponse sid text (TranscriptionResult.language result)
                         (word_infos (TranscriptionResult.words result))
                         committed_prefix true)),
       self)
  | _ =>
      let '(agreement_result, agreement) :=
        LocalAgreement.process (Session.agreement session) (TranscriptionResult.text result) in
      let session := Session.set_agreement session agreement in
      let self := store self sid session in
      if AgreementResult.is_final agreement_result then
        let keep_bytes := 16000 * 5 * 2 in
        let session :=
          if len (Session.audio_buffer session) >? keep_bytes
          then Session.set_audio_buffer session
                 (slice_from (- keep_bytes) (Session.audio_buffer session))
          else session in
        let self := store self sid session in
        (Returned (Some (FinalResponse sid (AgreementResult.text agreement_result)
                           (TranscriptionResult.language result)
                           (word_infos (TranscriptionResult.words result))
                           (AgreementResult.committed_prefix agreement_result) false)),
         self)
      else
        (Returned (Some (PartialResponse sid (AgreementResult.text agreement_result)
                           (TranscriptionResult.language result)
                           (TranscriptionResult.language_confidence result))),
         self)
  end end end end end end.

Definition _handle_stop (self : t) (cmd : StopCommand.t) : result (option Response) * t :=
  let sid := StopCommand.session_id cmd in
  match sessions self !! sid with
  | None => (Returned None, self)
  | Some session =>
  (** the last four statements of the method *)
  let finish (self : t) (session : Session.t) (response : option Response) :=
    let self := store self sid (Session.set_is_active session false) in
    let self := set_sessions self (delete sid (sessions self)) in
    let self := set_vad self (SileroVAD.reset model_reset_states (vad self)) in
    (Returned response, self) in
  match Session.audio_buffer session with
  | [] => finish self session None
  | _ :: _ =>
      let '(commit_result, agreement) :=
        LocalAgreement.force_commit (Session.agreement session) in
      let session := Session.set_agreement session agreement in
      let self := store self sid session in
      match commit_result with
      | Some (AgreementResult.mk ((_ :: _) as text) _ committed_prefix) =>
          match pcm_to_float32 (Session.audio_buffer session) with
          | None => (Raised ValueError, self)
          | Some audio =>
          match transcribe audio (language_of session)
                  (or_None (Session.initial_prompt session)) with
          | None => (Raised ExternalError, self)
          | Some result =>
              finish self session
                (Some (FinalResponse sid text (TranscriptionResult.language result)
                         (word_infos (TranscriptionResult.words result))
                         committed_prefix true))
          end end
      | _ => finish self session None
      end
  end end.

Definition _process_command (self : t) (line : loads) : result (option Response) * t :=
  match parse_command line with
  | Raised e => (Raised e, self)
  | Returned None =>
      (Returned (Some (ErrorResponse (py "unknown") (py "Invalid command format"))), self)
  | Returned (Some (Start cmd)) => _handle_start self cmd
  | Returned (Some (Audio cmd)) => _handle_audio self cmd
  | Returned (Some (Stop cmd)) => _handle_stop self cmd
  end.

(** A line read from the connection: bytes that are not UTF-8, a line that
    is blank once stripped, or text handed to [json.loads]. *)
Inductive line :=
| Undecodable
| Blank
| Text (l : loads).

(** The loop of [_handle_client] over the lines the peer sends before it
    closes: the responses written, in order, and the server left behind.
    An exception leaves the loop: it is logged and the connection is
    closed. *)
Fixpoint _handle_client (self : t) (lines : list line) : list Response * t :=
  match lines with
  | [] => ([], self)
  | Undecodable :: _ => ([], self)
  | Blank :: lines' => _handle_client self lines'
  | Text l :: lines' =>
      match _process_command self l with
      | (Raised _, self') => ([], self')
      | (Returned None, self') => _handle_client self' lines'
      | (Returned (Some response), self') =>
          let '(written, self'') := _handle_client self' lines' in
          (response :: written, self'')
      end
  end.

End WithCollaborators.
End WhisperServer.

(** ** Stand-ins for the external collaborators

    Concrete collaborators on which the handlers can be run: a network that
    scores every chunk 9/10 and counts its calls since the last reset as its
    recurrent state, an engine that always hears the same sentence, an
    engine that always raises, and a decoder that yields one second of
    silence (32000 zero bytes) whatever the payload. *)

Module StandIn.
Definition model_call (calls : nat) (audio : list Q) (sample_rate : Z)
  : option Q * nat := (Some (9 # 10)%Q, S calls).
Definition model_reset_states (calls : nat) : nat := O.
Definition transcribe_ok (audio : list Q) (language prompt : option str)
  : option TranscriptionResult.t :=
  Some (TranscriptionResult.mk (py "hello world") (py "en") 1%Q [] 1%Q).
Definition transcribe_raises (audio : list Q) (language prompt : option str)
  : option TranscriptionResult.t := None.
Definition b64decode (payload : str) : list byte + str :=
  inl (replicate (Z.to_nat 32000) x00).

(** A server started with the default settings of the repository. *)
Definition started : @WhisperServer.t nat :=
  WhisperServer.start (1 # 2)%Q 250 300 O.

Definition line_start (session_id : string) : loads :=
  Object (Data.mk (Some (JStr (py "START"))) (Some (py session_id))
            None None None None None).
Definition line_audio (session_id : string) : loads :=
  Object (Data.mk (Some (JStr (py "AUDIO"))) (Some (py session_id))
            None None None None (Some (py "AAAA"))).
Definition line_stop (session_id : string) : loads :=
  Object (Data.mk (Some (JStr (py "STOP"))) (Some (py session_id))
            None None None None None).
Definition line_ping : loads :=
  Object (Data.mk (Some (JStr (py "PING"))) None None None None None None).

(** The handlers with a working engine, and with one that raises. *)
Definition process_command :=
  WhisperServer._process_command model_call model_reset_states transcribe_ok
    b64decode 3 2 10.
Definition handle_client :=
  WhisperServer._handle_client model_call model_reset_states transcribe_ok
    b64decode 3 2 10.
Definition process_command_failing :=
  WhisperServer._process_command model_call model_reset_states transcribe_raises
    b64decode 3 2 10.
Definition handle_client_failing :=
  WhisperServer._handle_client model_call model_reset_states transcribe_raises
    b64decode 3 2 10.

(** The server once session "A" is registered, and once "A" and "B" are
    registered and "B" has sent one second of audio. *)
Definition registered_A : @WhisperServer.t nat :=
  snd (process_command started (line_start "A")).
Definition B_has_spoken : @WhisperServer.t nat :=
  snd (handle_client started
         [WhisperServer.Text (line_start "A"); WhisperServer.Text (line_start "B");
          WhisperServer.Text (line_audio "B")]).
End StandIn.

(** ** Further definitions *)

(** A "speech" event, as opposed to the two boundary events. *)
Definition is_plain_speech (e : VADEvent.t) : bool :=
  match VADEvent.event_type e with VADEvent.speech => true | _ => false end.

(** [to_json] of the three commands, up to [json.dumps]: the dict that is
    serialised, key by key. *)
Definition StartCommand_to_json (c : StartCommand.t) : Data.t :=
  Data.mk (Some (JStr (py "START"))) (Some (StartCommand.session_id c))
    (Some (StartCommand.source_lang c)) (Some (StartCommand.auto_detect_langs c))
    (Some (StartCommand.phrase_hints c)) (Some (StartCommand.initial_prompt c)) None.
Definition AudioCommand_to_json (c : AudioCommand.t) : Data.t :=
  Data.mk (Some (JStr (py "AUDIO"))) (Some (AudioCommand.session_id c))
    None None None None (Some (AudioCommand.pcm_b64 c)).
Definition StopCommand_to_json (c : StopCommand.t) : Data.t :=
  Data.mk (Some (JStr (py "STOP"))) (Some (StopCommand.session_id c))
    None None None None None.
Definition Command_to_json (c : Command) : Data.t :=
  match c with
  | Start c => StartCommand_to_json c
  | Audio c => AudioCommand_to_json c
  | Stop c => StopCommand_to_json c
  end.

(** The session a response is addressed to. *)
Definition response_session_id (r : Response) : list N :=
  match r with
  | PartialResponse session_id _ _ _ => session_id
  | FinalResponse session_id _ _ _ _ _ => session_id
  | ErrorResponse session_id _ => session_id
  | ReadyResponse session_id => session_id
  end.

(** Every registered session is active and registered under its own id. *)
Definition registry_consistent {model_state : Type}
    (self : @WhisperServer.t model_state) : Prop :=
  forall key session,
    WhisperServer.sessions self !! key = Some session ->
    Session.is_active session = true /\ Session.session_id session = key.

(** [reaches a a']: the stabilizer [a'] is [a] after some [process] and
    [force_commit] calls, without any [reset]. *)
Definition reaches (a a' : LocalAgreement.t) : Prop :=
  exists calls,
    Forall (fun c => LocalAgreement.is_reset c = false) calls
    /\ a' = LocalAgreement.run a calls.

(** *** whisper_engine.py: [_merge_text] *)

(** [s.split()]: the maximal runs of characters that are not whitespace;
    [word] is the run being read. *)
Fixpoint split_from (s : list N) (word : list N) : list (list N) :=
  match s with
  | [] => match word with [] => [] | _ => [word] end
  | c :: s' =>
      if isspace c then
        match word with
        | [] => split_from s' []
        | _ => word :: split_from s' []
        end
      else split_from s' (word ++ [c])
  end.
Definition split (s : list N) : list (list N) := split_from s [].

(** [sep.join(words)]. *)
Fixpoint join (sep : list N) (words : list (list N)) : list N :=
  match words with
  | [] => []
  | [w] => w
  | w :: ws => w ++ sep ++ join sep ws
  end.

(** The [for overlap_len in range(min(5, len(prev_words)), 0, -1)] loop of
    [_merge_text], from [overlap_len] downwards, with its fall-through. *)
Fixpoint merge_loop (prev new : list N) (prev_words new_words : list (list N))
    (overlap_len : nat) : list N :=
  match overlap_len with
  | O => prev ++ [SPACE] ++ new
  | S smaller =>
      if bool_decide (slice_from (- Z.of_nat overlap_len) prev_words
                      = slice_to (Z.of_nat overlap_len) new_words)
      then prev ++ [SPACE] ++ join [SPACE] (slice_from (Z.of_nat overlap_len) new_words)
      else merge_loop prev new prev_words new_words smaller
  end.

Definition _merge_text (prev new : list N) : list N :=
  match prev, new with
  | [], _ => new
  | _, [] => prev
  | _, _ =>
      let prev_words := split prev in
      let new_words := split new in
      merge_loop prev new prev_words new_words (Nat.min 5 (length prev_words))
  end.

(** A word as [split] yields them: not empty and free of whitespace. *)
Definition is_word (w : list N) : Prop :=
  w <> [] /\ Forall (fun c => isspace c = false) w.


(** * Properties *)

(** ** Strings *)

Section Strings.
Implicit Types s t : list N.

Lemma rstrip_prefix s : rstrip s `prefix_of` s.
Proof.
  induction s as [|c s IH]; simpl; [done|].
  destruct (rstrip s) as [|c' r] eqn:E.
  - destruct (isspace c); [apply prefix_nil | by apply (prefix_cons c [] s), prefix_nil].
  - by apply prefix_cons.
Qed.

Lemma rstrip_no_trailing_whitespace s : ends_with_whitespace (rstrip s) = false.
Proof.
  unfold ends_with_whitespace.
  induction s as [|c s IH]; simpl; [done|].
  destruct (rstrip s) as [|c' r] eqn:E.
  - destruct (isspace c) eqn:Ec; simpl; [done | by rewrite Ec].
  - by rewrite last_cons_cons.
Qed.

Lemma rfind_from_lower c s i found lo :
  lo <= i -> lo <= found -> lo <= rfind_from c s i found.
Proof.
  revert i found; induction s as [|x s IH]; intros i found Hi Hf; simpl; [done|].
  apply IH; [lia | destruct (x =? c)%N; lia].
Qed.

Lemma rfind_from_present c s i found :
  existsb (fun x => (x =? c)%N) s = true -> i <= rfind_from c s i found.
Proof.
  revert i found; induction s as [|x s IH]; intros i found; simpl; [done|].
  destruct (x =? c)%N; simpl.
  - intros _. apply rfind_from_lower; lia.
  - intros H. specialize (IH (i + 1) found H). lia.
Qed.

Lemma rfind_absent s : rfind s SPACE = -1 -> contains_space s = false.
Proof.
  unfold rfind, contains_space. intros H.
  destruct (existsb _ s) eqn:E; [|done].
  apply (rfind_from_present SPACE s 0 (-1)) in E. lia.
Qed.

Lemma slice_to_prefix {A} (j : Z) (l : list A) : slice_to j l `prefix_of` l.
Proof. apply prefix_take. Qed.

Lemma slice_from_suffix {A} (i : Z) (l : list A) : slice_from i l `suffix_of` l.
Proof. apply suffix_drop. Qed.
Lemma rfind_from_last c s i found :
  (rfind_from c s i found = found /\ existsb (fun x => (x =? c)%N) s = false)
  \/ exists j : nat,
       rfind_from c s i found = i + Z.of_nat j
       /\ s !! j = Some c
       /\ existsb (fun x => (x =? c)%N) (drop (S j) s) = false.
Proof.
  revert i found. induction s as [|x s IH]; intros i found; cbn [rfind_from existsb].
  { by left. }
  destruct (x =? c)%N eqn:E.
  - apply N.eqb_eq in E as ->. right.
    destruct (IH (i + 1) i) as [[Hr Hno]|(j & Hr & Hj & Hno)].
    + exists 0%nat. rewrite Hr. split_and!; [lia | done | done].
    + exists (S j). rewrite Hr. split_and!; [lia | done | done].
  - destruct (IH (i + 1) found) as [[Hr Hno]|(j & Hr & Hj & Hno)].
    + left. by rewrite Hr, Hno.
    + right. exists (S j). rewrite Hr. split_and!; [lia | done | done].
Qed.

Lemma rstrip_snoc_space s c : isspace c = true -> rstrip (s ++ [c]) = rstrip s.
Proof.
  intros Hc. induction s as [|x s IH]; cbn; [by rewrite Hc|]. by rewrite IH.
Qed.

End Strings.

(** ** The commit stabilizer *)

Section Agreement.
Import LocalAgreement.
Implicit Types (self : LocalAgreement.t) (text : list N).

Lemma trim_prefix text : _trim_to_word_boundary text `prefix_of` text.
Proof.
  unfold _trim_to_word_boundary. destruct text as [|c text]; [done|].
  destruct (_ =? -1); [done|].
  etrans; [apply rstrip_prefix | apply slice_to_prefix].
Qed.

Lemma trim_word_boundary text :
  contains_space (_trim_to_word_boundary text) = false
  \/ ends_with_whitespace (_trim_to_word_boundary text) = false.
Proof.
  unfold _trim_to_word_boundary. destruct text as [|c text]; [by left|].
  destruct (_ =? -1) eqn:E.
  - left. apply rfind_absent. lia.
  - right. apply rstrip_no_trailing_whitespace.
Qed.

Lemma lcp_loop_agree strings (first : list N) rest i remaining :
  strings = first :: rest ->
  (forall s j, s ∈ strings -> (j < i)%nat -> s !! j = first !! j) ->
  forall s j, s ∈ strings -> (j < lcp_loop strings i remaining i)%nat ->
              s !! j = first !! j.
Proof.
  intros ->. revert i. induction remaining as [|remaining IH]; intros i Hi; cbn [lcp_loop]; [exact Hi|].
  destruct (forallb _ _) eqn:E; [|done].
  apply IH. intros s j Hs Hj.
  destruct (decide (j = i)) as [->|]; [|apply Hi; [done|lia]].
  rewrite forallb_forall in E. apply list_elem_of_In, E in Hs.
  by apply bool_decide_eq_true in Hs.
Qed.

Lemma take_agree {A} (l1 l2 : list A) m :
  (forall j, (j < m)%nat -> l1 !! j = l2 !! j) -> take m l1 = take m l2.
Proof.
  intros H. apply list_eq. intros j.
  destruct (decide (j < m)%nat).
  - rewrite !lookup_take_lt by done. by apply H.
  - rewrite !lookup_take_ge by lia. done.
Qed.

Lemma lcp_prefix strings s :
  s ∈ strings -> _longest_common_prefix strings `prefix_of` s.
Proof.
  intros Hs. unfold _longest_common_prefix.
  destruct strings as [|first [|second rest]].
  - apply prefix_nil.
  - by apply list_elem_of_singleton in Hs as ->.
  - set (strings := first :: second :: rest) in *.
    set (m := lcp_loop strings 0 _ 0).
    replace (take m first) with (take m s); [apply prefix_take|].
    apply take_agree. intros j Hj.
    eapply (lcp_loop_agree strings first (second :: rest) 0); eauto.
    intros ? ? _ ?; lia.
Qed.

Lemma process_cases self text :
  let appended := history self ++ [text] in
  let kept := if len appended >? k self then tail appended else appended in
  let trimmed :=
    _trim_to_word_boundary (_longest_common_prefix (slice_from (- n self) kept)) in
  (process self text
     = (AgreementResult.mk text false (committed_prefix self), set_history self kept)
   /\ (len kept < n self
       \/ len trimmed <= len (committed_prefix self) + min_new_chars self))
  \/ (process self text
        = (AgreementResult.mk trimmed true trimmed,
           set_committed_prefix (set_history self kept) trimmed)
      /\ n self <= len kept
      /\ len (committed_prefix self) + min_new_chars self < len trimmed).
Proof.
  intros appended kept trimmed. unfold process. fold appended. fold kept.
  cbn [history set_history committed_prefix n min_new_chars k].
  destruct (len kept <? n self) eqn:E1.
  { left. split; [done | left; lia]. }
  fold trimmed. destruct (len trimmed >? _) eqn:E2.
  - right. repeat split; [lia | lia].
  - left. split; [done | right; lia].
Qed.

Lemma kept_last (history : list (list N)) text (k : Z) :
  let appended := history ++ [text] in
  let kept := if len appended >? k then tail appended else appended in
  kept = [] \/ last kept = Some text.
Proof.
  intros appended kept. subst kept appended.
  destruct (_ >? _); [|right; apply last_snoc].
  destruct history as [|h hs]; [by left|right]. apply last_snoc.
Qed.

Lemma step_min_new_chars self c : min_new_chars (step self c) = min_new_chars self.
Proof.
  destruct c as [text| |]; cbn [step]; [| |done].
  - destruct (process_cases self text) as [[-> _]|[-> _]]; done.
  - unfold force_commit. destruct (last _); [|done]. by destruct (_ <=? _).
Qed.

Lemma step_committed_length self c :
  0 <= min_new_chars self -> is_reset c = false ->
  committed_prefix (step self c) = committed_prefix self
  \/ len (committed_prefix self) < len (committed_prefix (step self c)).
Proof.
  intros Hmin Hc. destruct c as [text| |]; cbn [step]; [| |done].
  - destruct (process_cases self text) as [[-> _]|[-> [_ H]]]; cbn; [by left | right; lia].
  - unfold force_commit. destruct (last _) as [text|]; [|by left].
    destruct (_ <=? _) eqn:E; cbn; [by left | right; lia].
Qed.

End Agreement.

Section AgreementClaims.
Import LocalAgreement.
Implicit Types (self : LocalAgreement.t) (text : list N).

(** C1 (evaluation at the scenario's input).  With K=3, N=2 and
  minNewChars=5, after "Hello world" and "Hello world, how are" the agreed
  prefix "Hello world" is trimmed to "Hello", whose 5 characters do not
  exceed 0 + 5: the second call is not final, previews the raw hypothesis,
  and leaves the committed prefix empty. *)
Theorem scenario_A_second_call_is_partial :
let first := process (init 3 2 5) (py "Hello world") in
let second := process (snd first) (py "Hello world, how are") in
_trim_to_word_boundary
  (_longest_common_prefix (slice_from (-2) (history (snd second)))) = py "Hello"
/\ AgreementResult.is_final (fst second) = false
/\ AgreementResult.text (fst second) = py "Hello world, how are"
/\ AgreementResult.committed_prefix (fst second) = []
/\ committed_prefix (snd second) = [].
Proof. vm_compute. done. Qed.




(** C6.  With minNewChars >= 0 and no reset among the calls, every process
  or forceCommit call leaves the committed prefix unchanged or makes it
  strictly longer, so its length never decreases along the sequence. *)
Theorem committed_length_monotone self (calls : list call) :
0 <= min_new_chars self ->
Forall (fun c => is_reset c = false) calls ->
(forall before c after, calls = before ++ c :: after ->
   committed_prefix (run self (before ++ [c])) = committed_prefix (run self before)
   \/ len (committed_prefix (run self before))
      < len (committed_prefix (run self (before ++ [c]))))
/\ (forall before after, calls = before ++ after ->
      len (committed_prefix (run self before))
      <= len (committed_prefix (run self calls))).
Proof.
intros Hmin Hcalls.
assert (Hcfg : forall cs, min_new_chars (run self cs) = min_new_chars self).
{ intros cs. induction cs as [|c cs IH] using rev_ind; [done|].
  unfold run in *. by rewrite foldl_snoc, step_min_new_chars. }
split.
- intros before c after ->. unfold run. rewrite foldl_snoc.
  apply step_committed_length; [fold (run self before); by rewrite Hcfg|].
  apply Forall_app in Hcalls as [_ Hc]. by apply Forall_cons in Hc as [Hc _].
- intros before after ->. apply Forall_app in Hcalls as [_ Hafter].
  induction after as [|c after IH] using rev_ind; [by rewrite app_nil_r|].
  apply Forall_app in Hafter as [Hafter Hc]. apply Forall_cons in Hc as [Hc _].
  etrans; [by apply IH|]. rewrite app_assoc. unfold run at 2. rewrite foldl_snoc.
  fold (run self (before ++ after)).
  destruct (step_committed_length (run self (before ++ after)) c) as [->|];
    [by rewrite Hcfg | done | done | lia].
Qed.

Lemma committed_length_monotone_witness :
let calls := [Process (py "Hello world is"); Process (py "Hello world is here");
              ForceCommit] in
len (committed_prefix (run (init 3 2 5) [Process (py "Hello world is")]))
<= len (committed_prefix (run (init 3 2 5) calls)).
Proof.
cbn zeta.
apply (proj2 (committed_length_monotone (init 3 2 5)
                [Process (py "Hello world is"); Process (py "Hello world is here");
                 ForceCommit] ltac:(cbn; lia) ltac:(repeat constructor))
         [Process (py "Hello world is")]
         [Process (py "Hello world is here"); ForceCommit]).
reflexivity.
Defined.

(** C7.  [force_commit] returns none on an empty history; returns none when
  the most recent hypothesis is no longer than the committed prefix; and
  otherwise commits that whole hypothesis untrimmed, clears the history
  and returns a final result whose text is the new committed prefix. *)
Theorem force_commit_cases self :
(history self = [] -> force_commit self = (None, self))
/\ (forall text, last (history self) = Some text ->
      len text <= len (committed_prefix self) ->
      force_commit self = (None, self))
/\ (forall text, last (history self) = Some text ->
      len (committed_prefix self) < len text ->
      exists result self',
        force_commit self = (Some result, self')
        /\ committed_prefix self' = text
        /\ history self' = []
        /\ AgreementResult.is_final result = true
        /\ AgreementResult.text result = committed_prefix self'
        /\ AgreementResult.committed_prefix result = committed_prefix self'
        /\ (k self', n self', min_new_chars self') = (k self, n self, min_new_chars self)).
Proof.
unfold force_commit. repeat split.
- by intros ->.
- intros text -> Hlen. by rewrite (Zle_imp_le_bool _ _ Hlen).
- intros text -> Hlen. destruct (_ <=? _) eqn:E; [lia|].
  by eexists _, _.
Qed.

Lemma force_commit_cases_witness :
force_commit (init 3 2 10) = (None, init 3 2 10)
/\ force_commit (mk 3 2 10 [py "Hello"] (py "Hello world"))
   = (None, mk 3 2 10 [py "Hello"] (py "Hello world"))
/\ exists result self',
     force_commit (mk 3 2 10 [py "Hello"; py "Hello world this"] (py "Hello"))
     = (Some result, self')
     /\ committed_prefix self' = py "Hello world this"
     /\ history self' = []
     /\ AgreementResult.is_final result = true
     /\ AgreementResult.text result = committed_prefix self'
     /\ AgreementResult.committed_prefix result = committed_prefix self'
     /\ (k self', n self', min_new_chars self') = (3, 2, 10).
Proof.
split; [|split].
- apply (proj1 (force_commit_cases (init 3 2 10))). reflexivity.
- apply (proj1 (proj2 (force_commit_cases (mk 3 2 10 [py "Hello"] (py "Hello world"))))
           (py "Hello")); [reflexivity | vm_compute; discriminate].
- apply (proj2 (proj2 (force_commit_cases
                         (mk 3 2 10 [py "Hello"; py "Hello world this"] (py "Hello"))))
           (py "Hello world this")); [reflexivity | vm_compute; reflexivity].
Defined.

(** C9.  Whenever [force_commit] returns none, the history and the
  committed prefix (and so the whole object) are exactly as before. *)
Theorem force_commit_none_unchanged self :
fst (force_commit self) = None ->
history (snd (force_commit self)) = history self
/\ committed_prefix (snd (force_commit self)) = committed_prefix self
/\ snd (force_commit self) = self.
Proof.
unfold force_commit. destruct (last _); [|done].
by destruct (_ <=? _).
Qed.

Lemma force_commit_none_unchanged_witness :
let self := mk 3 2 10 [py "Hello"] (py "Hello world") in
history (snd (force_commit self)) = [py "Hello"]
/\ committed_prefix (snd (force_commit self)) = py "Hello world"
/\ snd (force_commit self) = self.
Proof.
apply (force_commit_none_unchanged (mk 3 2 10 [py "Hello"] (py "Hello world"))).
reflexivity.
Defined.

(** C10.  Whenever [process] returns a final result, the new committed
  prefix is a character-wise prefix of every entry of [history[-n:]], the
  entries the agreement was computed on, and of the hypothesis passed to
  that call. *)
Theorem process_final_prefix self text :
AgreementResult.is_final (fst (process self text)) = true ->
let self' := snd (process self text) in
AgreementResult.committed_prefix (fst (process self text)) = committed_prefix self'
/\ (forall h, h ∈ slice_from (- n self') (history self') ->
              committed_prefix self' `prefix_of` h)
/\ committed_prefix self' `prefix_of` text.
Proof.
destruct (process_cases self text) as [[-> _]|[-> _]]; [done|]. intros _.
cbn [fst snd AgreementResult.committed_prefix committed_prefix
     set_committed_prefix set_history history n].
set (kept := if _ >? _ then _ else _).
assert (Hall : forall h, h ∈ slice_from (- n self) kept ->
          _trim_to_word_boundary (_longest_common_prefix (slice_from (- n self) kept))
            `prefix_of` h).
{ intros h Hh. etrans; [apply trim_prefix | by apply lcp_prefix]. }
split; [done|]. split; [done|].
destruct (slice_from (- n self) kept) as [|h0 hs] eqn:Eslice; [apply prefix_nil|].
apply Hall.
destruct (slice_from_suffix (- n self) kept) as [front Hkept].
rewrite Eslice in Hkept.
destruct (kept_last (history self) text (k self)) as [Hnil|Hlast];
  fold kept in Hnil || fold kept in Hlast.
- rewrite Hnil in Hkept. by destruct front.
- rewrite Hkept, last_app in Hlast.
  destruct (last (h0 :: hs)) as [x|] eqn:El; [|by apply last_None in El].
  injection Hlast as ->. by apply last_Some_elem_of.
Qed.

Lemma process_final_prefix_witness :
let self := snd (process (init 3 2 5) (py "Hello world is")) in
let self' := snd (process self (py "Hello world is here")) in
AgreementResult.committed_prefix (fst (process self (py "Hello world is here")))
= committed_prefix self'
/\ (forall h, h ∈ slice_from (- n self') (history self') ->
              committed_prefix self' `prefix_of` h)
/\ committed_prefix self' `prefix_of` py "Hello world is here".
Proof.
apply (process_final_prefix (snd (process (init 3 2 5) (py "Hello world is")))
         (py "Hello world is here")).
reflexivity.
Defined.
End AgreementClaims.

(** ** The speech activity tracker *)

Section Tracker.
Import SileroVAD.
Context {model_state : Type}.
Implicit Types (self s : @SileroVAD.t model_state) (stream pre run : list (Q * Z)).

Lemma duration_app pre run : duration (pre ++ run) = duration pre + duration run.
Proof.
  induction pre as [|c pre IH]; [done|].
  change (c.2 + duration (pre ++ run) = c.2 + duration pre + duration run). lia.
Qed.

Lemma feed_snoc self pre c :
  feed self (pre ++ [c]) = snd (track (feed self pre) c.1 c.2).
Proof. unfold feed. by rewrite foldl_snoc. Qed.

(** [track] unfolded into its five outcomes. *)
Lemma track_cases s p d :
  let now := _current_ms s in
  let rebuild speaking speech_start silence_start :=
    mk (threshold s) (min_speech_ms s) (min_silence_ms s) (sample_rate s) (model s)
       speaking speech_start silence_start (now + d) in
  track s p d =
    if is_speech s p then
      if _is_speaking s then
        ([VADEvent.mk VADEvent.speech now p], rebuild true (_speech_start_ms s) None)
      else
        let start := default now (_speech_start_ms s) in
        if now - start + d >=? min_speech_ms s then
          ([VADEvent.mk VADEvent.speech_start start p; VADEvent.mk VADEvent.speech now p],
           rebuild true (Some start) None)
        else
          ([VADEvent.mk VADEvent.speech now p], rebuild false (Some start) None)
    else
      if _is_speaking s then
        let start := default now (_silence_start_ms s) in
        if now - start + d >=? min_silence_ms s then
          ([VADEvent.mk VADEvent.speech_end now (1 - p)%Q], rebuild false None None)
        else ([], rebuild true None (Some start))
      else ([], rebuild false None (_silence_start_ms s)).
Proof.
  destruct s as [th ms ml sr m speaking speech_start silence_start now].
  unfold track, is_speech; cbn.
  destruct (Qle_bool th p), speaking, speech_start, silence_start; cbn;
    repeat (destruct (_ >=? _); cbn); reflexivity.
Qed.

Section FromFresh.
Variable self0 : @SileroVAD.t model_state.
Hypothesis Hfresh : fresh self0.

(** What the tracker's fields record about the chunks fed so far. *)
Definition tracks (pre : list (Q * Z)) : Prop :=
  let s := feed self0 pre in
  (threshold s = threshold self0 /\ min_speech_ms s = min_speech_ms self0
   /\ min_silence_ms s = min_silence_ms self0)
  /\ _current_ms s = duration pre
  /\ (forall t, _speech_start_ms s = Some t ->
        exists before run, pre = before ++ run
          /\ Forall (fun c => speech_like self0 c = true) run
          /\ t = duration before)
  /\ (forall t, _silence_start_ms s = Some t ->
        exists before run, pre = before ++ run
          /\ Forall (fun c => speech_like self0 c = false) run
          /\ t = duration before
          /\ _is_speaking (feed self0 before) = true).

Lemma feed_tracks pre : tracks pre.
Proof.
  induction pre as [|[p d] pre IH] using rev_ind.
  { destruct Hfresh as (_ & Hs & Hl & Hc). unfold tracks; cbn.
    rewrite Hs, Hl, Hc. repeat split; done. }
  destruct IH as ((Hth & Hms & Hml) & Hnow & Hsp & Hsl).
  unfold tracks. rewrite feed_snoc. cbn [fst snd].
  set (s := feed self0 pre) in *.
  assert (Hlike : is_speech s p = speech_like self0 (p, d))
    by (unfold speech_like, is_speech; cbn; by rewrite Hth).
  rewrite track_cases, Hlike, duration_app. cbn zeta.
  change (duration [(p, d)]) with (d + 0).
  destruct (speech_like self0 (p, d)) eqn:Elike.
  - assert (Hrun : forall t, default (_current_ms s) (_speech_start_ms s) = t ->
              exists before run, pre ++ [(p, d)] = before ++ run
                /\ Forall (fun c => speech_like self0 c = true) run
                /\ t = duration before).
    { intros t Ht. destruct (_speech_start_ms s) as [t'|] eqn:E; cbn in Ht; subst t.
      - destruct (Hsp _ eq_refl) as (before & run & -> & Hall & ->).
        exists before, (run ++ [(p, d)]). rewrite app_assoc. split_and!; [done| |done].
        apply Forall_app; split; [done | by constructor].
      - exists pre, [(p, d)]. split_and!; [done | by constructor | done]. }
    destruct (_is_speaking s) eqn:Espeaking; [|destruct (_ >=? _)]; cbn;
      split_and?; try done; try lia.
    + intros t Ht. apply Hrun. by rewrite Ht.
    + intros t [= <-]. by apply Hrun.
    + intros t [= <-]. by apply Hrun.
  - destruct (_is_speaking s) eqn:Espeaking; [destruct (_ >=? _)|]; cbn;
      split_and?; try done; try lia.
    + intros t [= <-].
      destruct (_silence_start_ms s) as [t'|] eqn:E; cbn.
      * destruct (Hsl _ eq_refl) as (before & run & -> & Hall & -> & Hb).
        exists before, (run ++ [(p, d)]). rewrite app_assoc. split_and!; [done| |done..].
        apply Forall_app; split; [done | by constructor].
      * exists pre, [(p, d)]. split_and!; [done | by constructor | done..].
    + intros t Ht. destruct (Hsl _ Ht) as (before & run & -> & Hall & -> & Hb).
      exists before, (run ++ [(p, d)]). rewrite app_assoc. split_and!; [done| |done..].
      apply Forall_app; split; [done | by constructor].
Qed.
End FromFresh.
End Tracker.

Import SileroVAD.

(** C8.  Feed a fresh tracker any stream of chunks, one at a time.  A
    SpeechStart event comes out of a chunk only when that chunk ends a run of
    consecutive speech-like chunks spanning at least minSpeechMs; a SpeechEnd
    event only when it ends a run of consecutive silence-like chunks, begun
    while speaking, spanning at least minSilenceMs; and one silence-like
    chunk shorter than minSilenceMs, coming right after a speech-like chunk
    while speaking, emits no SpeechEnd and leaves the tracker speaking. *)
Theorem hysteresis_needs_sustained_evidence {model_state : Type}
    (self0 : @SileroVAD.t model_state) (pre : list (Q * Z)) (p : Q) (d : Z) :
  fresh self0 ->
  let s := feed self0 pre in
  let events := fst (track s p d) in
  (existsb VADEvent.is_speech_start events = true ->
     exists before run,
       pre ++ [(p, d)] = before ++ run
       /\ Forall (fun c => speech_like self0 c = true) run
       /\ min_speech_ms self0 <= duration run)
  /\ (existsb VADEvent.is_speech_end events = true ->
       exists before run,
         pre ++ [(p, d)] = before ++ run
         /\ Forall (fun c => speech_like self0 c = false) run
         /\ min_silence_ms self0 <= duration run
         /\ _is_speaking (feed self0 before) = true
         /\ _is_speaking s = true)
  /\ (_is_speaking s = true ->
       (exists pre' c, pre = pre' ++ [c] /\ speech_like self0 c = true) ->
       speech_like self0 (p, d) = false ->
       d < min_silence_ms self0 ->
       existsb VADEvent.is_speech_end events = false
       /\ _is_speaking (snd (track s p d)) = true).
Proof.
  intros Hfresh s events.
  destruct (feed_tracks self0 Hfresh pre) as ((Hth & Hms & Hml) & Hnow & Hsp & Hsl).
  fold s in Hth, Hms, Hml, Hnow, Hsp, Hsl.
  assert (Hlike : is_speech s p = speech_like self0 (p, d))
    by (unfold speech_like, is_speech; cbn; by rewrite Hth).
  subst events. rewrite track_cases, Hlike. cbn zeta. split_and!.
  - destruct (speech_like self0 (p, d)) eqn:Elike;
      [|by destruct (_is_speaking s); [destruct (_ >=? _)|]].
    destruct (_is_speaking s); [done|].
    destruct (_ >=? _) eqn:Edur; [intros _|done].
    destruct (_speech_start_ms s) as [t|] eqn:E; cbn in Edur.
    + destruct (Hsp _ eq_refl) as (before & run & Hpre & Hall & ->).
      exists before, (run ++ [(p, d)]). rewrite Hpre, app_assoc. split_and!; [done| |].
      * apply Forall_app; split; [done | by constructor].
      * rewrite Hpre, duration_app in Hnow. rewrite duration_app.
        change (duration [(p, d)]) with (d + 0). lia.
    + exists pre, [(p, d)]. split_and!; [done | by constructor |].
      change (duration [(p, d)]) with (d + 0). lia.
  - destruct (speech_like self0 (p, d)) eqn:Elike;
      [by destruct (_is_speaking s); [|destruct (_ >=? _)]|].
    destruct (_is_speaking s) eqn:Espeaking; [|done].
    destruct (_ >=? _) eqn:Edur; [intros _|done].
    destruct (_silence_start_ms s) as [t|] eqn:E; cbn in Edur.
    + destruct (Hsl _ eq_refl) as (before & run & Hpre & Hall & -> & Hb).
      exists before, (run ++ [(p, d)]). rewrite Hpre, app_assoc. split_and!; [done| | |done..].
      * apply Forall_app; split; [done | by constructor].
      * rewrite Hpre, duration_app in Hnow. rewrite duration_app.
        change (duration [(p, d)]) with (d + 0). lia.
    + exists pre, [(p, d)]. split_and!; [done | by constructor | | done..].
      change (duration [(p, d)]) with (d + 0). lia.
  - intros Hspeaking (pre' & [p0 d0] & Hpre & Hc) -> Hd. rewrite Hspeaking.
    assert (Hnone : _silence_start_ms s = None).
    { subst s. rewrite Hpre, feed_snoc. cbn [fst snd].
      destruct (feed_tracks self0 Hfresh pre') as ((Hth' & _) & _).
      rewrite track_cases.
      replace (is_speech (feed self0 pre') p0) with true
        by (unfold speech_like, is_speech in *; cbn in *; by rewrite Hth').
      cbn zeta. destruct (_is_speaking (feed self0 pre')); [done|]. by destruct (_ >=? _). }
    rewrite Hnone. cbn.
    destruct (_ >=? _) eqn:Edur; [lia | done].
Qed.

Lemma hysteresis_needs_sustained_evidence_witness :
  let self0 : @SileroVAD.t unit := init (1 # 2) 250 300 16000 in
  let pre := [((9 # 10)%Q, 128); ((9 # 10)%Q, 128)] in
  let s := feed self0 pre in
  let events := fst (track s (1 # 10) 128) in
  existsb VADEvent.is_speech_end events = false
  /\ _is_speaking (snd (track s (1 # 10) 128)) = true.
Proof.
  apply (hysteresis_needs_sustained_evidence
           (init (1 # 2) 250 300 16000 : @SileroVAD.t unit)
           [((9 # 10)%Q, 128); ((9 # 10)%Q, 128)] (1 # 10) 128).
  - repeat split.
  - reflexivity.
  - exists [((9 # 10)%Q, 128)], ((9 # 10)%Q, 128). split; reflexivity.
  - reflexivity.
  - reflexivity.
Defined.

(** ** The session orchestrator *)

Section Server.
Import WhisperServer.
Context {model_state : Type}.
Variable model_call : model_state -> list Q -> Z -> option Q * model_state.
Variable model_reset_states : model_state -> model_state.
Variable transcribe : list Q -> option (list N) -> option (list N) -> option TranscriptionResult.t.
Variable b64decode : list N -> list byte + list N.
Variables K N_ MIN_CHARS : Z.
Implicit Types (self : @WhisperServer.t model_state).

Local Abbreviation handle_start := (_handle_start K N_ MIN_CHARS).
Local Abbreviation handle_audio := (_handle_audio model_call model_reset_states transcribe b64decode).
Local Abbreviation handle_stop := (_handle_stop model_reset_states transcribe).
Local Abbreviation process_command :=
  (_process_command model_call model_reset_states transcribe b64decode K N_ MIN_CHARS).

Lemma store_other self key session other :
  key <> other -> sessions (store self key session) !! other = sessions self !! other.
Proof. intros. cbn. by rewrite lookup_insert_ne. Qed.

Lemma handle_start_frame self cmd other :
  StartCommand.session_id cmd <> other ->
  sessions (snd (handle_start self cmd)) !! other = sessions self !! other.
Proof. intros. by apply store_other. Qed.

Lemma handle_audio_frame self cmd other :
  AudioCommand.session_id cmd <> other ->
  sessions (snd (handle_audio self cmd)) !! other = sessions self !! other.
Proof.
  intros Hne. unfold _handle_audio.
  repeat (case_match; try done); subst; cbn;
    rewrite ?lookup_insert_ne by done; done.
Qed.

Lemma handle_stop_frame self cmd other :
  StopCommand.session_id cmd <> other ->
  sessions (snd (handle_stop self cmd)) !! other = sessions self !! other.
Proof.
  intros Hne. unfold _handle_stop.
  repeat (case_match; try done); subst; cbn;
    rewrite ?lookup_delete_ne, ?lookup_insert_ne by done; done.
Qed.
End Server.

Import WhisperServer.

(** C3 (counterexample).  Session "A" is registered and active, the chunk
    decodes to one second of audio, the tracker call returns and the engine
    raises: the handler raises instead of returning an Error response, and
    the connection loop writes nothing after the Ready acknowledgment. *)
Lemma backend_failure_is_not_an_error_response :
  Session.is_active <$> sessions StandIn.registered_A !! py "A" = Some true
  /\ fst (StandIn.process_command_failing StandIn.registered_A (StandIn.line_audio "A"))
     = Raised ExternalError
  /\ (forall response,
        fst (StandIn.process_command_failing StandIn.registered_A (StandIn.line_audio "A"))
        <> Returned (Some response))
  /\ fst (StandIn.handle_client_failing StandIn.started
            [Text (StandIn.line_start "A"); Text (StandIn.line_audio "A")])
     = [ReadyResponse (py "A")].
Proof.
  split; [vm_compute; reflexivity|].
  split; [vm_compute; reflexivity|].
  split; [intros response; vm_compute; discriminate|].
  vm_compute; reflexivity.
Qed.

(** C3 (amended).  For an Audio command addressed to a registered, active
    session whose chunk decodes and whose buffer is long enough to
    transcribe: if the tracker call raises, or it returns and the engine's
    transcribe call raises, the handler raises that exception and returns no
    response; the session is still registered and active with its stabilizer
    untouched, and its buffer holds the old audio followed by the new chunk.
    The connection loop then writes nothing for that line and ends. *)
Theorem backend_failure_propagates {model_state : Type}
    (model_call : model_state -> list Q -> Z -> option Q * model_state)
    (model_reset_states : model_state -> model_state)
    (transcribe : list Q -> option (list N) -> option (list N) -> option TranscriptionResult.t)
    (b64decode : list N -> list byte + list N)
    (K N_ MIN_CHARS : Z)
    (self : @WhisperServer.t model_state) (cmd : AudioCommand.t)
    (session : Session.t) (pcm_bytes : list byte) (audio : list Q) :
  let sid := AudioCommand.session_id cmd in
  let buffered := Session.audio_buffer session ++ pcm_bytes in
  let kept := Session.set_audio_buffer session buffered in
  let tracker_call :=
    SileroVAD.process_audio model_call (vad self)
      (slice_from (- _chunk_samples) audio) 32 in
  let failed e := (Raised e, mk (snd tracker_call) (<[sid := kept]> (sessions self))) in
  sessions self !! sid = Some session ->
  Session.is_active session = true ->
  b64decode (AudioCommand.pcm_b64 cmd) = inl pcm_bytes ->
  _min_transcribe_samples <= len buffered / 2 ->
  pcm_to_float32 (transcribe_window buffered) = Some audio ->
  (forall e, fst tracker_call = Raised e
             \/ ((exists events, fst tracker_call = Returned events)
                 /\ e = ExternalError
                 /\ transcribe audio (language_of session)
                      (or_None (Session.initial_prompt session)) = None) ->
     _handle_audio model_call model_reset_states transcribe b64decode self cmd = failed e
     /\ Session.is_active kept = true
     /\ Session.agreement kept = Session.agreement session
     /\ (forall lines : list line,
           _handle_client model_call model_reset_states transcribe b64decode
             K N_ MIN_CHARS self (Text (Object
               (Data.mk (Some (JStr (py "AUDIO"))) (Some sid) None None None None
                  (Some (AudioCommand.pcm_b64 cmd)))) :: lines)
           = ([], snd (failed e)))).
Proof.
  intros sid buffered kept tracker_call failed Hsession Hactive Hdecode Hlen Haudio e He.
  assert (Hhandler :
    _handle_audio model_call model_reset_states transcribe b64decode self cmd = failed e).
  { unfold _handle_audio. fold sid. rewrite Hsession, Hactive, Hdecode. cbn [negb].
    cbn [Session.audio_buffer Session.set_audio_buffer]. fold buffered.
    destruct (_ <? _) eqn:E; [lia|]. rewrite Haudio.
    cbn [vad store set_sessions]. fold tracker_call.
    destruct He as [He|((events & He) & -> & Ht)].
    - destruct tracker_call as [r vad']. cbn in He. by subst r.
    - destruct tracker_call as [r vad']. cbn in He. subst r.
      change (language_of (Session.set_audio_buffer session buffered))
        with (language_of session).
      cbn [Session.initial_prompt Session.set_audio_buffer]. by rewrite Ht. }
  split_and!; [done..|].
  intros lines. cbn [_handle_client]. unfold _process_command.
  cbn [parse_command Data.cmd Data.session_id Data.pcm_b64 cmd_is].
  rewrite bool_decide_eq_false_2 by done.
  rewrite bool_decide_eq_true_2 by done.
  destruct cmd as [sid' pcm]. cbn in *. subst sid. by rewrite Hhandler.
Qed.

Lemma backend_failure_propagates_witness :
  StandIn.process_command_failing StandIn.registered_A (StandIn.line_audio "A")
  = (Raised ExternalError,
     mk (snd (SileroVAD.process_audio StandIn.model_call (vad StandIn.registered_A)
                (replicate (Z.to_nat 4000) (0 # 32768)%Q) 32))
        (<[py "A" := Session.mk (py "A") (py "en-US") [] [] []
                       (LocalAgreement.init 3 2 10) (replicate (Z.to_nat 32000) x00)
                       true 0]> (sessions StandIn.registered_A))).
Proof.
  pose proof (backend_failure_propagates StandIn.model_call StandIn.model_reset_states
                StandIn.transcribe_raises StandIn.b64decode 3 2 10
                StandIn.registered_A (AudioCommand.mk (py "A") (py "AAAA"))
                (Session.mk (py "A") (py "en-US") [] [] [] (LocalAgreement.init 3 2 10)
                   [] true 0)
                (replicate (Z.to_nat 32000) x00)
                (replicate (Z.to_nat 16000) (0 # 32768)%Q)) as H.
  cbv zeta in H.
  specialize (H ltac:(vm_compute; reflexivity) ltac:(reflexivity)
                ltac:(reflexivity) ltac:(vm_compute; discriminate)
                ltac:(vm_compute; reflexivity) ExternalError).
  destruct H as [H _].
  - right. split; [|split; reflexivity].
    eexists. vm_compute. reflexivity.
  - vm_compute. vm_compute in H. exact H.
Defined.

(** C4 (counterexample).  A well-formed line whose command name is "PING"
    is answered, with an Error response, instead of being ignored. *)
Lemma unrecognized_command_is_answered :
  fst (StandIn.process_command StandIn.started StandIn.line_ping)
  = Returned (Some (ErrorResponse (py "unknown") (py "Invalid command format")))
  /\ fst (StandIn.process_command StandIn.started StandIn.line_ping) <> Returned None
  /\ fst (StandIn.handle_client StandIn.started [Text StandIn.line_ping])
     = [ErrorResponse (py "unknown") (py "Invalid command format")].
Proof.
  split; [vm_compute; reflexivity|].
  split; [vm_compute; discriminate|].
  vm_compute; reflexivity.
Qed.

(** C4 (amended).  For every well-formed inbound line whose command name is
    not one of START, AUDIO or STOP, the server answers with an Error
    response (session "unknown", "Invalid command format") and leaves its
    state as it was, exactly as it does for a line that cannot be parsed. *)
Theorem unrecognized_command_gets_error {model_state : Type}
    (model_call : model_state -> list Q -> Z -> option Q * model_state)
    (model_reset_states : model_state -> model_state)
    (transcribe : list Q -> option (list N) -> option (list N) -> option TranscriptionResult.t)
    (b64decode : list N -> list byte + list N)
    (K N_ MIN_CHARS : Z)
    (self : @WhisperServer.t model_state) (data : Data.t) :
  cmd_is (Data.cmd data) (py "START") = false ->
  cmd_is (Data.cmd data) (py "AUDIO") = false ->
  cmd_is (Data.cmd data) (py "STOP") = false ->
  let answer :=
    (Returned (Some (ErrorResponse (py "unknown") (py "Invalid command format"))), self) in
  _process_command model_call model_reset_states transcribe b64decode K N_ MIN_CHARS
    self (Object data) = answer
  /\ _process_command model_call model_reset_states transcribe b64decode K N_ MIN_CHARS
       self JSONDecodeError = answer.
Proof.
  intros Hstart Haudio Hstop. unfold _process_command, parse_command.
  by rewrite Hstart, Haudio, Hstop.
Qed.

Lemma unrecognized_command_gets_error_witness :
  StandIn.process_command StandIn.started StandIn.line_ping
  = (Returned (Some (ErrorResponse (py "unknown") (py "Invalid command format"))),
     StandIn.started).
Proof.
  apply (unrecognized_command_gets_error StandIn.model_call StandIn.model_reset_states
           StandIn.transcribe_ok StandIn.b64decode 3 2 10 StandIn.started
           (Data.mk (Some (JStr (py "PING"))) None None None None None None));
    reflexivity.
Defined.

(** C5 (counterexample).  Sessions "A" and "B" are registered and "B" has
    sent one second of audio, so the tracker is speaking with its clock at
    256 ms and its network eight calls into its recurrent state.  A Stop for
    "A" resets all of that, and an Audio for "A" advances it, although "B"
    is still registered and active. *)
Lemma other_session_changes_tracker :
  let after_stop := snd (StandIn.process_command StandIn.B_has_spoken (StandIn.line_stop "A")) in
  let after_audio := snd (StandIn.process_command StandIn.B_has_spoken (StandIn.line_audio "A")) in
  let observe (self : @WhisperServer.t nat) :=
    (SileroVAD._is_speaking (vad self), SileroVAD._speech_start_ms (vad self),
     SileroVAD._silence_start_ms (vad self), SileroVAD._current_ms (vad self),
     SileroVAD.model (vad self)) in
  Session.is_active <$> sessions after_stop !! py "B" = Some true
  /\ Session.is_active <$> sessions after_audio !! py "B" = Some true
  /\ observe StandIn.B_has_spoken = (true, Some 0, None, 256, Some 8%nat)
  /\ observe after_stop = (false, None, None, 0, Some 0%nat)
  /\ observe after_audio = (true, Some 0, None, 512, Some 16%nat).
Proof.
  cbv zeta. split; [vm_compute; reflexivity|].
  split; [vm_compute; reflexivity|].
  split; [vm_compute; reflexivity|].
  split; vm_compute; reflexivity.
Qed.

(** C5 (amended).  The registry entry of a session (its stabilizer, audio
    buffer, hints and active flag) is owned by that session: a command
    addressed to one session leaves the entry of every other session as it
    was.  The speech-activity state is not part of the entry: it is one
    tracker of the whole server, and a Stop that returns for a registered
    session resets it. *)
Theorem other_sessions_untouched {model_state : Type}
    (model_call : model_state -> list Q -> Z -> option Q * model_state)
    (model_reset_states : model_state -> model_state)
    (transcribe : list Q -> option (list N) -> option (list N) -> option TranscriptionResult.t)
    (b64decode : list N -> list byte + list N)
    (K N_ MIN_CHARS : Z)
    (self : @WhisperServer.t model_state) (line : loads) (cmd : Command) (other : list N) :
  parse_command line = Returned (Some cmd) ->
  addressed_session cmd <> other ->
  let after :=
    _process_command model_call model_reset_states transcribe b64decode K N_ MIN_CHARS
      self line in
  sessions (snd after) !! other = sessions self !! other
  /\ (forall stop response,
        cmd = Stop stop -> is_Some (sessions self !! addressed_session cmd) ->
        fst after = Returned response ->
        vad (snd after) = SileroVAD.reset model_reset_states (vad self)).
Proof.
  intros Hparse Hother. cbn zeta. unfold _process_command. rewrite Hparse.
  split.
  - destruct cmd as [c|c|c]; cbn in Hother.
    + by apply handle_start_frame.
    + by apply handle_audio_frame.
    + by apply handle_stop_frame.
  - intros stop response -> [session Hsession]. cbn in Hsession.
    unfold _handle_stop. rewrite Hsession.
    repeat (case_match; try done).
Qed.

Lemma other_sessions_untouched_witness :
  let after := StandIn.process_command StandIn.B_has_spoken (StandIn.line_stop "A") in
  sessions (snd after) !! py "B" = sessions StandIn.B_has_spoken !! py "B"
  /\ (forall stop response,
        Stop (StopCommand.mk (py "A")) = Stop stop ->
        is_Some (sessions StandIn.B_has_spoken !! py "A") ->
        fst after = Returned response ->
        vad (snd after)
        = SileroVAD.reset StandIn.model_reset_states (vad StandIn.B_has_spoken)).
Proof.
  apply (other_sessions_untouched StandIn.model_call StandIn.model_reset_states
           StandIn.transcribe_ok StandIn.b64decode 3 2 10 StandIn.B_has_spoken
           (StandIn.line_stop "A") (Stop (StopCommand.mk (py "A"))) (py "B")).
  - reflexivity.
  - vm_compute. discriminate.
Defined.

(** * Further properties *)

(** ** More on the commit stabilizer *)

Section AgreementMore.
Import LocalAgreement.
Implicit Types (self : LocalAgreement.t) (text : list N).

Lemma min_length_lower (first : list N) (rest : list (list N)) (m : nat) :
  (forall s, s ∈ first :: rest -> (m <= length s)%nat) ->
  (m <= min_length first rest)%nat.
Proof.
  intros H. unfold min_length. induction rest as [|s rest IH]; cbn.
  - apply H. by left.
  - apply Nat.min_glb.
    + apply H. right. by left.
    + apply IH. intros s' Hs'. apply H.
      apply elem_of_cons in Hs' as [->|Hs']; [by left | by do 2 right].
Qed.

Lemma forallb_false_elem {A} (f : A -> bool) (l : list A) :
  forallb f l = false -> exists x, x ∈ l /\ f x = false.
Proof.
  induction l as [|x l IH]; cbn; [done|].
  destruct (f x) eqn:E; cbn.
  - intros H. destruct (IH H) as (y & Hy & Hf). exists y. split; [by right | done].
  - intros _. exists x. split; [by left | done].
Qed.

(** The loop either runs through all its iterations or stops at the first
    index where some string differs from the first one. *)
Lemma lcp_loop_stops strings (first : list N) rest i remaining :
  strings = first :: rest ->
  let r := lcp_loop strings i remaining i in
  r = (i + remaining)%nat
  \/ ((i <= r < i + remaining)%nat /\ exists s, s ∈ strings /\ s !! r <> first !! r).
Proof.
  intros ->. revert i. induction remaining as [|remaining IH]; intros i; cbn [lcp_loop].
  { left. lia. }
  destruct (forallb _ _) eqn:E.
  - destruct (IH (S i)) as [Hr|[Hr Hs]]; [left; lia | right; split; [lia | done]].
  - right. split; [lia|].
    apply forallb_false_elem in E as (s & Hs & Hneq).
    exists s. split; [done|].
    by apply bool_decide_eq_false in Hneq.
Qed.

Lemma prefix_lookup_Some {A} (p l : list A) (j : nat) :
  p `prefix_of` l -> (j < length p)%nat -> l !! j = p !! j.
Proof. intros [k ->] Hj. by rewrite lookup_app_l. Qed.

(** X2.  [_longest_common_prefix] returns the greatest common prefix: it is
    a prefix of every string of the list, and every common prefix of a
    non-empty list is a prefix of it. *)
Theorem longest_common_prefix_greatest (strings : list (list N)) (p : list N) :
  (forall s, s ∈ strings -> _longest_common_prefix strings `prefix_of` s)
  /\ (strings <> [] -> (forall s, s ∈ strings -> p `prefix_of` s) ->
      p `prefix_of` _longest_common_prefix strings).
Proof.
  split; [intros s; apply lcp_prefix|].
  intros Hne Hp. unfold _longest_common_prefix.
  destruct strings as [|first [|second rest]]; [done | apply Hp; by left |].
  set (strings := first :: second :: rest) in *.
  assert (Hfirst : p `prefix_of` first) by (apply Hp; by left).
  assert (Hmin : (length p <= min_length first (second :: rest))%nat).
  { apply min_length_lower. intros s Hs. by apply prefix_length, Hp. }
  set (m := lcp_loop strings 0 _ 0).
  assert (Hm : (length p <= m)%nat).
  { destruct (lcp_loop_stops strings first (second :: rest) 0
                (min_length first (second :: rest)) eq_refl) as [Hr|[Hr (s & Hs & Hneq)]];
      fold m in Hr; [lia|]. fold m in Hneq.
    destruct (decide (length p <= m)%nat) as [|Hlt]; [done|]. exfalso. apply Hneq.
    rewrite (prefix_lookup_Some p s m) by (by apply Hp || lia).
    by rewrite (prefix_lookup_Some p first m) by (done || lia). }
  destruct Hfirst as [tl ->]. rewrite take_app_ge by done.
  by apply prefix_app_r.
Qed.

Lemma longest_common_prefix_greatest_witness :
  py "Hello" `prefix_of`
    _longest_common_prefix [py "Hello world"; py "Hello there"; py "Hello"].
Proof.
  apply (proj2 (longest_common_prefix_greatest
                  [py "Hello world"; py "Hello there"; py "Hello"] (py "Hello"))).
  - discriminate.
  - intros s Hs. repeat (apply elem_of_cons in Hs as [->|Hs]);
      [by exists (py " world") | by exists (py " there") | by exists [] |].
    by apply elem_of_nil in Hs.
Defined.
End AgreementMore.

Section TrimMore.
Import LocalAgreement.
Implicit Types (s text : list N).

(** X3.  A text without a space is returned as it is.  A text with a space
    is cut at its last space: it reads [head], that space, then a last word
    free of spaces, and the result is [head] with its trailing whitespace
    stripped. *)
Theorem trim_drops_the_last_word text :
  (contains_space text = false -> _trim_to_word_boundary text = text)
  /\ (contains_space text = true ->
      exists head word,
        text = head ++ [SPACE] ++ word
        /\ contains_space word = false
        /\ _trim_to_word_boundary text = rstrip head).
Proof.
  unfold _trim_to_word_boundary, contains_space, rfind.
  destruct (rfind_from_last SPACE text 0 (-1)) as [[Hr Hno]|(j & Hr & Hj & Hno)];
    rewrite Hr.
  - split; [|by rewrite Hno]. by destruct text.
  - assert (Hlt : (j < length text)%nat) by (by eapply lookup_lt_Some).
    split.
    + intros Habsent. exfalso.
      assert (Hin : existsb (fun c => (c =? SPACE)%N) text = true); [|congruence].
      apply existsb_exists. exists SPACE. split; [|done].
      by apply list_elem_of_In, list_elem_of_lookup_2 with j.
    + intros _. exists (take j text), (drop (S j) text).
      assert (Hsplit : text = take j text ++ [SPACE] ++ drop (S j) text).
      { rewrite <- (take_drop_middle text j SPACE) at 1 by done. done. }
      split_and!; [done..|].
      destruct text as [|x text]; [cbn in Hlt; lia|].
      destruct (0 + Z.of_nat j =? -1) eqn:E; [lia|].
      unfold slice_to, slice_index.
      destruct (0 + Z.of_nat j + 1 <? 0) eqn:E'; [lia|].
      replace (Z.to_nat (Z.min _ _)) with (S j) by lia.
      rewrite (take_S_r _ j SPACE) by done.
      by apply rstrip_snoc_space.
Qed.

Lemma trim_drops_the_last_word_witness :
  _trim_to_word_boundary (py "helloworld") = py "helloworld"
  /\ exists head word,
       py "hello   wor" = head ++ [SPACE] ++ word
       /\ contains_space word = false
       /\ _trim_to_word_boundary (py "hello   wor") = rstrip head.
Proof.
  split.
  - apply (proj1 (trim_drops_the_last_word (py "helloworld"))). reflexivity.
  - apply (proj2 (trim_drops_the_last_word (py "hello   wor"))). reflexivity.
Defined.
End TrimMore.

Section StabilizerMore.
Import LocalAgreement.
Implicit Types (self : LocalAgreement.t) (text : list N).

Lemma gtb_false_le (a b : Z) : (a >? b) = false -> a <= b.
Proof. lia. Qed.

Lemma step_k self c : k (step self c) = k self.
Proof.
  destruct c as [text| |]; cbn [step]; [| |done].
  - destruct (process_cases self text) as [[-> _]|[-> _]]; done.
  - unfold force_commit. destruct (last _); [|done]. by destruct (_ <=? _).
Qed.

Lemma step_n self c : n (step self c) = n self.
Proof.
  destruct c as [text| |]; cbn [step]; [| |done].
  - destruct (process_cases self text) as [[-> _]|[-> _]]; done.
  - unfold force_commit. destruct (last _); [|done]. by destruct (_ <=? _).
Qed.

Lemma process_history self text :
  history (snd (process self text))
  = if len (history self ++ [text]) >? k self
    then tail (history self ++ [text]) else history self ++ [text].
Proof. destruct (process_cases self text) as [[-> _]|[-> _]]; done. Qed.

Lemma run_settings self (calls : list call) :
  k (run self calls) = k self /\ n (run self calls) = n self.
Proof.
  induction calls as [|c calls [IHk IHn]] using rev_ind; [done|].
  unfold run in *. by rewrite foldl_snoc, step_k, step_n.
Qed.

Lemma run_history_calls (k n min_new_chars : Z) (calls : list call) :
  len (history (run (init k n min_new_chars) calls)) <= len calls.
Proof.
  induction calls as [|c calls IH] using rev_ind; [done|].
  unfold run in *. rewrite foldl_snoc.
  set (self := foldl step (init k n min_new_chars) calls) in *.
  assert (Hstep : len (history (step self c)) <= len (history self) + 1).
  { destruct c as [text| |]; cbn [step].
    - rewrite process_history. unfold len. destruct (_ >? _).
      + destruct (history self) as [|h hs]; cbn; [lia|]. rewrite length_app. cbn. lia.
      + rewrite length_app. cbn. lia.
    - unfold force_commit. destruct (last _); [|cbn; lia].
      destruct (_ <=? _); unfold len; cbn; lia.
    - unfold len. cbn. lia. }
  unfold len in *. rewrite length_app. cbn. lia.
Qed.

(** X1.  Whatever calls are made on a fresh stabilizer, its history never
    holds more than K entries, and none at all when K is not positive. *)
Theorem history_never_exceeds_k (k n min_new_chars : Z) (calls : list call) :
  len (history (run (init k n min_new_chars) calls)) <= Z.max 0 k.
Proof.
  induction calls as [|c calls IH] using rev_ind.
  { unfold len. cbn. lia. }
  pose proof (proj1 (run_settings (init k n min_new_chars) calls)) as Hk.
  unfold run in *. rewrite foldl_snoc.
  set (self := foldl step (init k n min_new_chars) calls) in *.
  cbn in Hk. rewrite <- Hk in *. clearbody self.
  destruct c as [text| |]; cbn [step].
  - rewrite process_history. destruct (_ >? _) eqn:E.
    + unfold len in *. destruct (history self) as [|h hs]; cbn [app tail length] in *; [lia|].
      rewrite length_app in *. cbn [length] in *. lia.
    + apply gtb_false_le in E. lia.
  - unfold force_commit. destruct (last _); [|cbn [snd]; lia].
    destruct (_ <=? _); cbn; unfold len in *; cbn; lia.
  - unfold len in *. cbn. lia.
Qed.

(** X4.  A second [force_commit] in a row returns none and changes
    nothing: a flush is never emitted twice. *)
Theorem force_commit_twice self :
  force_commit (snd (force_commit self)) = (None, snd (force_commit self)).
Proof.
  unfold force_commit at 2 3.
  destruct (last (history self)) as [text|] eqn:E; cbn [snd].
  - destruct (len text <=? len (committed_prefix self)) eqn:E'; cbn [snd].
    + unfold force_commit. by rewrite E, E'.
    + reflexivity.
  - unfold force_commit. by rewrite E.
Qed.

(** X5.  The committed prefix a [process] result carries is the one the
    stabilizer holds after the call.  A final result's text is that
    committed prefix; a result that is not final previews the hypothesis as
    passed in and leaves the committed prefix as it was. *)
Theorem process_result_matches_state self text :
  let result := fst (process self text) in
  let self' := snd (process self text) in
  AgreementResult.committed_prefix result = committed_prefix self'
  /\ (AgreementResult.is_final result = true ->
      AgreementResult.text result = committed_prefix self'
      /\ len (committed_prefix self) + min_new_chars self < len (committed_prefix self'))
  /\ (AgreementResult.is_final result = false ->
      AgreementResult.text result = text
      /\ committed_prefix self' = committed_prefix self).
Proof.
  destruct (process_cases self text) as [[-> _]|[-> [_ Hlen]]]; cbn; split_and!; done.
Qed.

Lemma process_result_matches_state_witness :
  let self := snd (process (init 3 2 5) (py "Hello world is")) in
  let result := fst (process self (py "Hello world is here")) in
  let self' := snd (process self (py "Hello world is here")) in
  AgreementResult.text result = committed_prefix self'
  /\ len (committed_prefix self) + min_new_chars self < len (committed_prefix self').
Proof.
  apply (proj1 (proj2 (process_result_matches_state
                         (snd (process (init 3 2 5) (py "Hello world is")))
                         (py "Hello world is here")))).
  reflexivity.
Defined.

(** X6.  On a fresh stabilizer, a [process] call preceded by fewer than
    N - 1 calls is never final: there is not yet enough history to judge
    stability. *)
Theorem early_process_is_partial (k n min_new_chars : Z) (calls : list call) text :
  len calls + 1 < n ->
  let result := fst (process (run (init k n min_new_chars) calls) text) in
  AgreementResult.is_final result = false /\ AgreementResult.text result = text.
Proof.
  intros Hcalls. cbn zeta.
  pose proof (run_history_calls k n min_new_chars calls) as Hh.
  pose proof (proj2 (run_settings (init k n min_new_chars) calls)) as Hn.
  destruct (process_cases (run (init k n min_new_chars) calls) text)
    as [[-> _]|[_ [Hlen _]]]; [done|]. exfalso.
  revert Hlen. set (self := run (init k n min_new_chars) calls) in *.
  rewrite Hn. cbn [LocalAgreement.n init]. unfold len in *.
  destruct (_ >? _).
  - destruct (history self) as [|h hs]; cbn in *; [lia|]. rewrite length_app in *. cbn. lia.
  - rewrite length_app. cbn. lia.
Qed.

Lemma early_process_is_partial_witness :
  let result := fst (process (run (init 5 4 0) [Process (py "a b"); ForceCommit]) (py "a b c")) in
  AgreementResult.is_final result = false /\ AgreementResult.text result = py "a b c".
Proof.
  apply (early_process_is_partial 5 4 0 [Process (py "a b"); ForceCommit] (py "a b c")).
  reflexivity.
Defined.
End StabilizerMore.

(** ** More on the speech activity tracker *)

Section TrackerMore.
Import SileroVAD.
Context {model_state : Type}.
Implicit Types (self s : @SileroVAD.t model_state) (stream pre run : list (Q * Z)).

Lemma track_keeps_settings s p d :
  let s' := snd (track s p d) in
  threshold s' = threshold s /\ min_speech_ms s' = min_speech_ms s
  /\ min_silence_ms s' = min_silence_ms s /\ sample_rate s' = sample_rate s
  /\ model s' = model s /\ _current_ms s' = _current_ms s + d.
Proof.
  cbn zeta. rewrite track_cases. cbn zeta.
  destruct (is_speech s p), (_is_speaking s); try destruct (_ >=? _); done.
Qed.
End TrackerMore.

(** X7.  After any chunk, from any state, at most one of the two candidate
    timestamps is set. *)
Theorem candidates_are_exclusive {model_state : Type}
    (s : @SileroVAD.t model_state) (p : Q) (d : Z) :
  let s' := snd (SileroVAD.track s p d) in
  SileroVAD._speech_start_ms s' = None \/ SileroVAD._silence_start_ms s' = None.
Proof.
  cbn zeta. rewrite track_cases. cbn zeta.
  destruct (SileroVAD.is_speech s p), (SileroVAD._is_speaking s);
    try destruct (_ >=? _); cbn; auto.
Qed.

(** X8.  The events of a chunk report exactly what happened to the speaking
    flag: a SpeechStart is emitted if and only if the flag went from false
    to true, a SpeechEnd if and only if it went from true to false, so never
    both; and a Speech event is emitted if and only if the chunk is
    speech-like. *)
Theorem events_report_transitions {model_state : Type}
    (s : @SileroVAD.t model_state) (p : Q) (d : Z) :
  let events := fst (SileroVAD.track s p d) in
  let s' := snd (SileroVAD.track s p d) in
  (existsb VADEvent.is_speech_start events = true
   <-> SileroVAD._is_speaking s = false /\ SileroVAD._is_speaking s' = true)
  /\ (existsb VADEvent.is_speech_end events = true
      <-> SileroVAD._is_speaking s = true /\ SileroVAD._is_speaking s' = false)
  /\ existsb is_plain_speech events = SileroVAD.is_speech s p.
Proof.
  cbn zeta. rewrite track_cases. cbn zeta.
  destruct (SileroVAD.is_speech s p), (SileroVAD._is_speaking s);
    try destruct (_ >=? _); cbn; intuition congruence.
Qed.

Lemma events_report_transitions_witness :
  let s : @SileroVAD.t unit :=
    SileroVAD.feed (SileroVAD.init (1 # 2) 250 300 16000) [((9 # 10)%Q, 128)] in
  SileroVAD._is_speaking s = false
  /\ SileroVAD._is_speaking (snd (SileroVAD.track s (9 # 10) 128)) = true.
Proof.
  apply (proj1 (events_report_transitions
                  (SileroVAD.feed (SileroVAD.init (1 # 2) 250 300 16000 : @SileroVAD.t unit)
                     [((9 # 10)%Q, 128)]) (9 # 10) 128)).
  reflexivity.
Defined.

(** X9.  The hysteresis of [process_chunk], run over a stream of chunks,
    advances the clock by exactly the sum of the chunk durations it is given
    and changes none of the four settings; so the clock never goes back when
    no duration is negative. *)
Theorem clock_follows_durations {model_state : Type}
    (self : @SileroVAD.t model_state) (stream : list (Q * Z)) :
  let s' := SileroVAD.feed self stream in
  SileroVAD._current_ms s' = SileroVAD._current_ms self + SileroVAD.duration stream
  /\ (SileroVAD.threshold s', SileroVAD.min_speech_ms s', SileroVAD.min_silence_ms s',
      SileroVAD.sample_rate s')
     = (SileroVAD.threshold self, SileroVAD.min_speech_ms self,
        SileroVAD.min_silence_ms self, SileroVAD.sample_rate self)
  /\ (Forall (fun c => 0 <= c.2) stream ->
      forall pre post, stream = pre ++ post ->
        SileroVAD._current_ms (SileroVAD.feed self pre) <= SileroVAD._current_ms s').
Proof.
  cbn zeta.
  assert (Hfeed : forall stream,
    SileroVAD._current_ms (SileroVAD.feed self stream)
    = SileroVAD._current_ms self + SileroVAD.duration stream
    /\ (SileroVAD.threshold (SileroVAD.feed self stream),
        SileroVAD.min_speech_ms (SileroVAD.feed self stream),
        SileroVAD.min_silence_ms (SileroVAD.feed self stream),
        SileroVAD.sample_rate (SileroVAD.feed self stream))
       = (SileroVAD.threshold self, SileroVAD.min_speech_ms self,
          SileroVAD.min_silence_ms self, SileroVAD.sample_rate self)).
  { clear stream. intros stream. induction stream as [|[p d] stream [IHc IHs]] using rev_ind.
    { cbn. split; [lia | done]. }
    rewrite feed_snoc, duration_app. cbn [fst snd].
    destruct (track_keeps_settings (SileroVAD.feed self stream) p d)
      as (-> & -> & -> & -> & _ & ->).
    split; [|done]. rewrite IHc. change (SileroVAD.duration [(p, d)]) with (d + 0). lia. }
  split_and!; [apply Hfeed | apply Hfeed |].
  intros Hpos pre post ->.
  rewrite (proj1 (Hfeed (pre ++ post))), (proj1 (Hfeed pre)), duration_app.
  apply Forall_app in Hpos as [_ Hpost].
  assert (0 <= SileroVAD.duration post); [|lia].
  induction Hpost as [|c post Hc _ IH]; [done|].
  change (0 <= c.2 + SileroVAD.duration post). lia.
Qed.

Lemma clock_follows_durations_witness :
  let self : @SileroVAD.t unit := SileroVAD.init (1 # 2) 250 300 16000 in
  SileroVAD._current_ms (SileroVAD.feed self [((9 # 10)%Q, 32)])
  <= SileroVAD._current_ms (SileroVAD.feed self [((9 # 10)%Q, 32); ((1 # 10)%Q, 32)]).
Proof.
  apply (proj2 (proj2 (clock_follows_durations
                         (SileroVAD.init (1 # 2) 250 300 16000 : @SileroVAD.t unit)
                         [((9 # 10)%Q, 32); ((1 # 10)%Q, 32)]))
           ltac:(repeat constructor; cbn; lia)
           [((9 # 10)%Q, 32)] [((1 # 10)%Q, 32)]).
  reflexivity.
Defined.



Lemma chunks_cover_fuel (fuel chunk_samples : nat) (audio : list Q) :
  (0 < chunk_samples)%nat -> (length audio <= fuel)%nat ->
  let cut := SileroVAD.chunks fuel chunk_samples audio in
  Forall (fun chunk => length chunk = chunk_samples) cut
  /\ exists pad : nat,
       (pad < chunk_samples)%nat
       /\ concat cut = audio ++ replicate pad 0%Q
       /\ (length cut * chunk_samples = length audio + pad)%nat.
Proof.
  intros Hcs. revert audio. induction fuel as [|fuel IH]; intros audio Hfuel; cbn zeta.
  { destruct audio; [|cbn in Hfuel; lia]. cbn. split; [constructor|].
    exists 0%nat. split_and!; [lia | done | done]. }
  destruct audio as [|x audio]; cbn [SileroVAD.chunks].
  { split; [constructor|]. exists 0%nat. split_and!; [lia | done | done]. }
  set (whole := x :: audio) in *.
  destruct (IH (drop chunk_samples whole)) as (Hall & pad & Hpad & Hcat & Hlen).
  { rewrite length_drop. cbn in Hfuel |- *. lia. }
  split.
  - constructor; [|done]. rewrite length_app, length_take, length_replicate. lia.
  - destruct (decide (length whole <= chunk_samples)%nat) as [Hshort|Hlong].
    + rewrite drop_ge in Hcat, Hlen |- * by done.
      destruct fuel; cbn [SileroVAD.chunks concat length] in *;
        rewrite take_ge by done;
        (exists (chunk_samples - length whole)%nat;
         split_and!; [subst whole; cbn; lia | by rewrite app_nil_r | lia]).
    + exists pad. split_and!; [done | |].
      * cbn [concat]. rewrite Hcat, length_take.
        replace (chunk_samples - _)%nat with 0%nat by lia. cbn [replicate].
        rewrite app_nil_r, app_assoc. by rewrite take_drop.
      * cbn [length]. rewrite length_drop in Hlen. lia.
Qed.

(** X11.  [process_audio] cuts its audio into chunks without losing or
    reordering a sample: every chunk holds exactly [chunk_samples] samples,
    and the chunks put end to end are the audio followed by fewer than
    [chunk_samples] zeros of padding. *)
Theorem chunks_cover_audio (chunk_samples : nat) (audio : list Q) :
  (0 < chunk_samples)%nat ->
  let cut := SileroVAD.chunks (length audio) chunk_samples audio in
  Forall (fun chunk => length chunk = chunk_samples) cut
  /\ exists pad : nat,
       (pad < chunk_samples)%nat
       /\ concat cut = audio ++ replicate pad 0%Q
       /\ (length cut * chunk_samples = length audio + pad)%nat.
Proof. intros Hcs. by apply chunks_cover_fuel. Qed.

Lemma chunks_cover_audio_witness :
  let cut := SileroVAD.chunks 5 2 [1; 2; 3; 4; 5]%Q in
  Forall (fun chunk => length chunk = 2%nat) cut
  /\ exists pad : nat,
       (pad < 2)%nat
       /\ concat cut = [1; 2; 3; 4; 5]%Q ++ replicate pad 0%Q
       /\ (length cut * 2 = 5 + pad)%nat.
Proof. apply (chunks_cover_audio 2 [1; 2; 3; 4; 5]%Q). lia. Defined.

Section ProcessAudio.
Import SileroVAD.
Context {model_state : Type}.
Variable model_call : model_state -> list Q -> Z -> option Q * model_state.
Implicit Types (self : @SileroVAD.t model_state).

Lemma process_chunk_returns self chunk events self' :
  process_chunk model_call self chunk = (Returned events, self') ->
  _current_ms self' = _current_ms self + chunk_duration_ms self chunk
  /\ sample_rate self' = sample_rate self
  /\ is_Some (model self').
Proof.
  unfold process_chunk. destruct (model self) as [m|] eqn:Em; [|done].
  destruct (model_call m chunk _) as [[prob|] m']; [|done].
  set (s1 := set_model self (Some m')).
  pose proof (track_keeps_settings s1 prob (chunk_duration_ms self chunk))
    as (_ & _ & _ & Hsr & Hm & Hc).
  destruct (track s1 prob _) as [evs s2]. cbn [snd] in *.
  intros [= <- <-]. rewrite Hc, Hsr, Hm. cbn. eauto.
Qed.

Lemma process_chunks_clock self todo acc events self' (samples : nat) :
  Forall (fun chunk => length chunk = samples) todo ->
  process_chunks model_call self todo acc = (Returned events, self') ->
  _current_ms self'
  = _current_ms self + len todo * Z.quot (Z.of_nat samples * 1000) (sample_rate self)
  /\ sample_rate self' = sample_rate self.
Proof.
  intros Hall. revert self acc. induction Hall as [|chunk todo Hlen _ IH]; intros self acc.
  { cbn. intros [= _ <-]. unfold len. cbn. split; [lia | done]. }
  cbn [process_chunks].
  destruct (process_chunk model_call self chunk) as [[evs|e] s1] eqn:E; [|done].
  apply process_chunk_returns in E as (Hc & Hsr & _).
  intros Hrest. apply IH in Hrest as [-> ->]. rewrite Hc, Hsr. split; [|done].
  unfold chunk_duration_ms, len. rewrite Hlen. cbn [length]. lia.
Qed.
End ProcessAudio.

(** X12.  At the service's settings (16 kHz, 32 ms chunks of 512 samples),
    when [process_audio] returns the clock has advanced by 32 ms for every
    chunk, the zero-padded last one included: by 32 ms times
    [ceil(len(audio) / 512)]. *)
Theorem process_audio_advances_clock {model_state : Type}
    (model_call : model_state -> list Q -> Z -> option Q * model_state)
    (self : @SileroVAD.t model_state) (audio : list Q) :
  let outcome := SileroVAD.process_audio model_call self audio 32 in
  SileroVAD.sample_rate self = 16000 ->
  (exists events, fst outcome = Returned events) ->
  exists count : Z,
    (count - 1) * 512 < len audio <= count * 512
    /\ SileroVAD._current_ms (snd outcome) = SileroVAD._current_ms self + count * 32.
Proof.
  intros outcome Hrate [events Hret]. subst outcome.
  destruct (SileroVAD.process_audio _ _ _ _) as [r self'] eqn:Hcall.
  cbn [fst snd] in *. subst r. revert Hcall.
  unfold SileroVAD.process_audio. rewrite Hrate.
  change (Z.quot (16000 * 32) 1000) with 512.
  change (512 =? 0) with false. change (512 <? 0) with false. cbn iota.
  intros Hret.
  destruct (chunks_cover_fuel (length audio) (Z.to_nat 512) audio ltac:(lia) ltac:(lia))
    as (Hall & pad & Hpad & _ & Hlen).
  eapply process_chunks_clock in Hret as [Hclock _]; [|exact Hall].
  exists (len (SileroVAD.chunks (length audio) (Z.to_nat 512) audio)).
  rewrite Hclock, Hrate, Z2Nat.id by lia.
  change (Z.quot (512 * 1000) 16000) with 32. split; [|done].
  unfold len. lia.
Qed.

Lemma process_audio_advances_clock_witness :
  exists count : Z,
    (count - 1) * 512 < 4000 <= count * 512
    /\ SileroVAD._current_ms
         (snd (SileroVAD.process_audio StandIn.model_call
                 (WhisperServer.vad StandIn.started)
                 (replicate (Z.to_nat 4000) (0 # 32768)%Q) 32))
       = 0 + count * 32.
Proof.
  apply (process_audio_advances_clock StandIn.model_call
           (WhisperServer.vad StandIn.started)
           (replicate (Z.to_nat 4000) (0 # 32768)%Q)).
  - reflexivity.
  - eexists. vm_compute. reflexivity.
Defined.

(** X13.  With no network loaded, [process_audio] on audio that is not
    empty raises [RuntimeError] at its first chunk and leaves the tracker as
    it was. *)
Theorem process_audio_needs_model {model_state : Type}
    (model_call : model_state -> list Q -> Z -> option Q * model_state)
    (self : @SileroVAD.t model_state) (audio : list Q) (chunk_ms : Z) :
  SileroVAD.model self = None ->
  audio <> [] ->
  0 < Z.quot (SileroVAD.sample_rate self * chunk_ms) 1000 ->
  SileroVAD.process_audio model_call self audio chunk_ms = (Raised RuntimeError, self).
Proof.
  intros Hmodel Haudio Hcs. unfold SileroVAD.process_audio.
  destruct (_ =? 0) eqn:E0; [lia|]. destruct (_ <? 0) eqn:E1; [lia|].
  destruct audio as [|x audio]; [done|]. cbn [length SileroVAD.chunks SileroVAD.process_chunks].
  unfold SileroVAD.process_chunk. by rewrite Hmodel.
Qed.

Lemma process_audio_needs_model_witness :
  SileroVAD.process_audio StandIn.model_call (SileroVAD.init (1 # 2) 250 300 16000)
    [0%Q; 0%Q] 32
  = (Raised RuntimeError, SileroVAD.init (1 # 2) 250 300 16000).
Proof.
  apply (process_audio_needs_model StandIn.model_call
           (SileroVAD.init (1 # 2) 250 300 16000) [0%Q; 0%Q] 32);
    [reflexivity | discriminate | vm_compute; reflexivity].
Defined.

(** ** More on the protocol and the session orchestrator *)

(** X14.  [parse_command] undoes [to_json]: each of the three commands,
    serialised and parsed back, is the command itself. *)
Theorem parse_command_inverts_to_json (c : Command) :
  parse_command (Object (Command_to_json c)) = Returned (Some c).
Proof. by destruct c as [[]|[]|[]]. Qed.

Section ServerMore.
Import WhisperServer.
Context {model_state : Type}.
Variable model_call : model_state -> list Q -> Z -> option Q * model_state.
Variable model_reset_states : model_state -> model_state.
Variable transcribe : list Q -> option (list N) -> option (list N) -> option TranscriptionResult.t.
Variable b64decode : list N -> list byte + list N.
Variables K N_ MIN_CHARS : Z.
Implicit Types (self : @WhisperServer.t model_state).

Local Abbreviation handle_start := (_handle_start K N_ MIN_CHARS).
Local Abbreviation handle_audio :=
  (_handle_audio model_call model_reset_states transcribe b64decode).
Local Abbreviation handle_stop := (_handle_stop model_reset_states transcribe).
Local Abbreviation process_command :=
  (_process_command model_call model_reset_states transcribe b64decode K N_ MIN_CHARS).
Local Abbreviation handle_client :=
  (_handle_client model_call model_reset_states transcribe b64decode K N_ MIN_CHARS).

Lemma consistent_store self key session :
  registry_consistent self ->
  Session.is_active session = true -> Session.session_id session = key ->
  registry_consistent (store self key session).
Proof.
  intros Hself Hactive Hid key' session'. cbn.
  destruct (decide (key = key')) as [<-|Hne].
  - rewrite lookup_insert_eq. by intros [= <-].
  - rewrite lookup_insert_ne by done. apply Hself.
Qed.

Lemma consistent_set_vad self v :
  registry_consistent self -> registry_consistent (set_vad self v).
Proof. done. Qed.

Lemma consistent_delete self key :
  registry_consistent self ->
  registry_consistent (set_sessions self (delete key (sessions self))).
Proof.
  intros Hself key' session'. cbn.
  destruct (decide (key = key')) as [<-|Hne].
  - by rewrite lookup_delete_eq.
  - rewrite lookup_delete_ne by done. apply Hself.
Qed.

Lemma handle_audio_consistent self cmd :
  registry_consistent self -> registry_consistent (snd (handle_audio self cmd)).
Proof.
  intros Hself. unfold _handle_audio.
  destruct (sessions self !! AudioCommand.session_id cmd) as [session|] eqn:Hs; [|done].
  destruct (Hself _ _ Hs) as [Hactive Hid].
  repeat (case_match; try done); subst; cbn [snd];
    repeat (first [ apply consistent_set_vad | apply consistent_store ]); done.
Qed.

Lemma handle_start_consistent self cmd :
  registry_consistent self -> registry_consistent (snd (handle_start self cmd)).
Proof. intros Hself. by apply consistent_store. Qed.

Lemma handle_stop_consistent self cmd :
  registry_consistent self -> registry_consistent (snd (handle_stop self cmd)).
Proof.
  intros Hself. unfold _handle_stop.
  destruct (sessions self !! StopCommand.session_id cmd) as [session|] eqn:Hs; [|done].
  destruct (Hself _ _ Hs) as [Hactive Hid].
  repeat (case_match; try done); subst; cbn [snd];
    try (apply consistent_set_vad;
         match goal with
         | |- registry_consistent (set_sessions (store ?s ?key ?session) _) =>
             change (registry_consistent
                       (set_sessions s (delete key (<[key := session]> (sessions s)))));
             rewrite delete_insert_eq; apply consistent_delete
         end);
    repeat (first [ apply consistent_set_vad | apply consistent_store ]); done.
Qed.

Lemma process_command_consistent self line :
  registry_consistent self -> registry_consistent (snd (process_command self line)).
Proof.
  intros Hself. unfold _process_command.
  destruct (parse_command line) as [[[c|c|c]|]|e]; [| | |done..].
  - by apply handle_start_consistent.
  - by apply handle_audio_consistent.
  - by apply handle_stop_consistent.
Qed.

Lemma handle_client_consistent self lines :
  registry_consistent self -> registry_consistent (snd (handle_client self lines)).
Proof.
  revert self. induction lines as [|[| |l] lines IH]; intros self Hself;
    cbn [_handle_client]; [done | done | by apply IH |].
  pose proof (process_command_consistent self l Hself) as Hnext.
  destruct (process_command self l) as [[[response|]|e] self']; cbn [snd] in *.
  - specialize (IH self' Hnext). by destruct (handle_client self' lines).
  - by apply IH.
  - done.
Qed.
End ServerMore.

(** X15.  Every session in the registry is active and registered under its
    own id: the property holds when the server starts and survives every
    line processed, from whatever connection and whether the handler returns
    or raises.  The handlers' branch for a registered but inactive session
    is therefore never taken. *)
Theorem registry_stays_consistent {model_state : Type}
    (model_call : model_state -> list Q -> Z -> option Q * model_state)
    (model_reset_states : model_state -> model_state)
    (transcribe : list Q -> option (list N) -> option (list N) -> option TranscriptionResult.t)
    (b64decode : list N -> list byte + list N)
    (K N_ MIN_CHARS : Z) (threshold : Q) (min_speech_ms min_silence_ms : Z)
    (loaded : model_state) (lines : list loads) :
  let serve self line :=
    snd (WhisperServer._process_command model_call model_reset_states transcribe
           b64decode K N_ MIN_CHARS self line) in
  registry_consistent
    (foldl serve (WhisperServer.start threshold min_speech_ms min_silence_ms loaded) lines).
Proof.
  cbn zeta. induction lines as [|line lines IH] using rev_ind.
  - intros key session. cbn. by rewrite lookup_empty.
  - rewrite foldl_snoc. by apply process_command_consistent.
Qed.

(** X16.  An Audio command for a session id that is not registered gets an
    Error response naming that id and changes nothing; a Start with the same
    id then gets a Ready response and registers a fresh, active session with
    an empty buffer and an empty stabilizer. *)
Theorem unknown_session_then_start {model_state : Type}
    (model_call : model_state -> list Q -> Z -> option Q * model_state)
    (model_reset_states : model_state -> model_state)
    (transcribe : list Q -> option (list N) -> option (list N) -> option TranscriptionResult.t)
    (b64decode : list N -> list byte + list N)
    (K N_ MIN_CHARS : Z)
    (self : @WhisperServer.t model_state) (audio : AudioCommand.t) (start : StartCommand.t) :
  let sid := AudioCommand.session_id audio in
  WhisperServer.sessions self !! sid = None ->
  StartCommand.session_id start = sid ->
  WhisperServer._handle_audio model_call model_reset_states transcribe b64decode self audio
  = (Returned (Some (ErrorResponse sid (py "Session not found"))), self)
  /\ fst (WhisperServer._handle_start K N_ MIN_CHARS self start)
     = Returned (Some (ReadyResponse sid))
  /\ WhisperServer.sessions (snd (WhisperServer._handle_start K N_ MIN_CHARS self start)) !! sid
     = Some (Session.mk sid (StartCommand.source_lang start)
               (StartCommand.auto_detect_langs start) (StartCommand.phrase_hints start)
               (StartCommand.initial_prompt start)
               (LocalAgreement.init K N_ MIN_CHARS) [] true 0).
Proof.
  intros sid Hnone Hid. split_and!.
  - unfold WhisperServer._handle_audio. fold sid. by rewrite Hnone.
  - cbn. by rewrite Hid.
  - cbn. rewrite Hid. by rewrite lookup_insert_eq.
Qed.

Lemma unknown_session_then_start_witness :
  StandIn.process_command StandIn.started (StandIn.line_audio "A")
  = (Returned (Some (ErrorResponse (py "A") (py "Session not found"))), StandIn.started)
  /\ fst (StandIn.process_command StandIn.started (StandIn.line_start "A"))
     = Returned (Some (ReadyResponse (py "A"))).
Proof.
  pose proof (unknown_session_then_start StandIn.model_call StandIn.model_reset_states
                StandIn.transcribe_ok StandIn.b64decode 3 2 10 StandIn.started
                (AudioCommand.mk (py "A") (py "AAAA"))
                (StartCommand.mk (py "A") (py "en-US") [] [] [])
                ltac:(reflexivity) ltac:(reflexivity)) as (Haudio & Hstart & _).
  split; [exact Haudio | exact Hstart].
Defined.

(** X17.  An Error response never comes with a change of state: whenever a
    line is answered with an Error response, the server is exactly as it was
    before the line. *)
Theorem error_response_changes_nothing {model_state : Type}
    (model_call : model_state -> list Q -> Z -> option Q * model_state)
    (model_reset_states : model_state -> model_state)
    (transcribe : list Q -> option (list N) -> option (list N) -> option TranscriptionResult.t)
    (b64decode : list N -> list byte + list N)
    (K N_ MIN_CHARS : Z)
    (self : @WhisperServer.t model_state) (line : loads) (response : Response) :
  let outcome :=
    WhisperServer._process_command model_call model_reset_states transcribe b64decode
      K N_ MIN_CHARS self line in
  fst outcome = Returned (Some response) ->
  is_error response = true ->
  snd outcome = self.
Proof.
  cbn zeta. unfold WhisperServer._process_command.
  destruct (parse_command line) as [[[c|c|c]|]|e]; [| | |done..].
  - cbn. intros [= <-]. done.
  - unfold WhisperServer._handle_audio.
    repeat (case_match; try done); subst; cbn [fst snd]; intros [= <-]; done.
  - unfold WhisperServer._handle_stop.
    repeat (case_match; try done); subst; cbn [fst snd]; intros [= <-]; done.
Qed.

Lemma error_response_changes_nothing_witness :
  snd (StandIn.process_command StandIn.registered_A (StandIn.line_audio "B"))
  = StandIn.registered_A.
Proof.
  apply (error_response_changes_nothing StandIn.model_call StandIn.model_reset_states
           StandIn.transcribe_ok StandIn.b64decode 3 2 10 StandIn.registered_A
           (StandIn.line_audio "B")
           (ErrorResponse (py "B") (py "Session not found")));
    [vm_compute; reflexivity | reflexivity].
Defined.

(** X18.  Audio accumulates silently until a second of it is buffered: a
    connection that sends Audio commands for one registered session, whose
    chunks all decode and together leave fewer than 16000 samples in the
    buffer, is written no response; the chunks are appended to the buffer
    in order, and nothing else changes. *)
Theorem short_audio_accumulates {model_state : Type}
    (model_call : model_state -> list Q -> Z -> option Q * model_state)
    (model_reset_states : model_state -> model_state)
    (transcribe : list Q -> option (list N) -> option (list N) -> option TranscriptionResult.t)
    (b64decode : list N -> list byte + list N)
    (K N_ MIN_CHARS : Z)
    (self : @WhisperServer.t model_state) (sid : list N) (session : Session.t)
    (payloads : list (list N)) (chunks : list (list byte)) :
  WhisperServer.sessions self !! sid = Some session ->
  Session.is_active session = true ->
  Forall2 (fun payload chunk => b64decode payload = inl chunk) payloads chunks ->
  len (Session.audio_buffer session ++ concat chunks) / 2
    < WhisperServer._min_transcribe_samples ->
  WhisperServer._handle_client model_call model_reset_states transcribe b64decode
    K N_ MIN_CHARS self
    (map (fun payload =>
            WhisperServer.Text (Object (AudioCommand_to_json (AudioCommand.mk sid payload))))
       payloads)
  = ([], WhisperServer.store self sid
           (Session.set_audio_buffer session
              (Session.audio_buffer session ++ concat chunks))).
Proof.
  intros Hs Hactive Hdecode. revert self session Hs Hactive.
  induction Hdecode as [|payload chunk payloads chunks Hd _ IH];
    intros self session Hs Hactive Hlen.
  - cbn. rewrite app_nil_r. unfold WhisperServer.store. cbn.
    destruct self as [v m], session. cbn in *. by rewrite insert_id.
  - cbn [map WhisperServer._handle_client].
    unfold WhisperServer._process_command.
    change (parse_command (Object (AudioCommand_to_json (AudioCommand.mk sid payload))))
      with (Returned (Some (Audio (AudioCommand.mk sid payload)))).
    unfold WhisperServer._handle_audio. cbn [AudioCommand.session_id AudioCommand.pcm_b64].
    rewrite Hs, Hactive, Hd. cbn [negb].
    change (Session.audio_buffer (Session.set_audio_buffer session ?b)) with b.
    assert (Hshort : len (Session.audio_buffer session ++ chunk) / 2
                     < WhisperServer._min_transcribe_samples).
    { cbn [concat] in Hlen. rewrite app_assoc in Hlen.
      eapply Z.le_lt_trans; [|exact Hlen]. apply Z.div_le_mono; [lia|].
      unfold len. rewrite (length_app (_ ++ _)). lia. }
    destruct (_ <? _) eqn:E; [|lia].
    set (session' := Session.set_audio_buffer session _).
    rewrite (IH (WhisperServer.store self sid session') session').
    + f_equal. unfold WhisperServer.store. cbn. rewrite insert_insert_eq.
      cbn [concat]. by rewrite app_assoc.
    + cbn. by rewrite lookup_insert_eq.
    + done.
    + cbn [concat] in Hlen. by rewrite app_assoc in Hlen.
Qed.

Lemma short_audio_accumulates_witness :
  WhisperServer._handle_client StandIn.model_call StandIn.model_reset_states
    StandIn.transcribe_ok (fun _ => inl [x01; x02]) 3 2 10 StandIn.registered_A
    (map (fun payload =>
            WhisperServer.Text (Object (AudioCommand_to_json
                                          (AudioCommand.mk (py "A") payload))))
       [py "AQI="; py "AQI="])
  = ([], WhisperServer.store StandIn.registered_A (py "A")
           (Session.set_audio_buffer
              (Session.mk (py "A") (py "en-US") [] [] [] (LocalAgreement.init 3 2 10)
                 [] true 0)
              ([] ++ concat [[x01; x02]; [x01; x02]]))).
Proof.
  apply (short_audio_accumulates StandIn.model_call StandIn.model_reset_states
           StandIn.transcribe_ok (fun _ => inl [x01; x02]) 3 2 10 StandIn.registered_A
           (py "A")
           (Session.mk (py "A") (py "en-US") [] [] [] (LocalAgreement.init 3 2 10)
              [] true 0)
           [py "AQI="; py "AQI="] [[x01; x02]; [x01; x02]]).
  - reflexivity.
  - reflexivity.
  - repeat constructor.
  - vm_compute. reflexivity.
Defined.

(** X19.  A Stop for an unregistered session returns nothing and changes
    nothing.  A Stop that returns for a registered session leaves that
    session unregistered and the tracker fresh, answers with nothing or with
    an utterance-terminal Final response, and an Audio command sent to that
    session afterwards is answered "Session not found". *)
Theorem stop_ends_the_session {model_state : Type}
    (model_call : model_state -> list Q -> Z -> option Q * model_state)
    (model_reset_states : model_state -> model_state)
    (transcribe : list Q -> option (list N) -> option (list N) -> option TranscriptionResult.t)
    (b64decode : list N -> list byte + list N)
    (self : @WhisperServer.t model_state) (cmd : StopCommand.t) :
  let sid := StopCommand.session_id cmd in
  let outcome := WhisperServer._handle_stop model_reset_states transcribe self cmd in
  (WhisperServer.sessions self !! sid = None -> outcome = (Returned None, self))
  /\ (forall response,
        is_Some (WhisperServer.sessions self !! sid) ->
        fst outcome = Returned response ->
        WhisperServer.sessions (snd outcome) !! sid = None
        /\ SileroVAD.fresh (WhisperServer.vad (snd outcome))
        /\ (response = None
            \/ exists text language words,
                 response = Some (FinalResponse sid text language words text true))
        /\ forall pcm_b64,
             WhisperServer._handle_audio model_call model_reset_states transcribe
               b64decode (snd outcome) (AudioCommand.mk sid pcm_b64)
             = (Returned (Some (ErrorResponse sid (py "Session not found"))),
                snd outcome)).
Proof.
  intros sid outcome. subst outcome. split.
  { intros Hnone. unfold WhisperServer._handle_stop. fold sid. by rewrite Hnone. }
  intros response [session Hs] Hret.
  assert (Hgone : WhisperServer.sessions
                    (snd (WhisperServer._handle_stop model_reset_states transcribe self cmd))
                  !! sid = None
                  /\ SileroVAD.fresh
                       (WhisperServer.vad
                          (snd (WhisperServer._handle_stop model_reset_states transcribe
                                  self cmd)))
                  /\ (response = None
                      \/ exists text language words,
                           response = Some (FinalResponse sid text language words text true))).
  { revert Hret. unfold WhisperServer._handle_stop. fold sid. rewrite Hs.
    assert (Hfresh : forall v : @SileroVAD.t model_state,
              SileroVAD.fresh (SileroVAD.reset model_reset_states v)).
    { intros v. unfold SileroVAD.reset. by destruct (SileroVAD.model _). }
    destruct (Session.audio_buffer session) as [|b bs] eqn:Hbuf.
    { cbn [fst snd]. intros [= <-]. split_and!; [|apply Hfresh|by left].
      cbn. by rewrite lookup_delete_eq. }
    unfold LocalAgreement.force_commit.
    destruct (last _) as [text|]; [destruct (_ <=? _)|]; cbn [fst snd];
      try (intros [= <-]; split_and!; [cbn; by rewrite lookup_delete_eq|apply Hfresh|by left]).
    destruct text as [|c text]; cbn [fst snd];
      try (intros [= <-]; split_and!; [cbn; by rewrite lookup_delete_eq|apply Hfresh|by left]).
    destruct (pcm_to_float32 _); [|cbn [fst]; intros; discriminate].
    destruct (transcribe _ _ _); [|cbn [fst]; intros; discriminate]. cbn [fst snd].
    intros [= <-]. split_and!; [cbn; by rewrite lookup_delete_eq|apply Hfresh|].
    right. by eexists _, _, _. }
  destruct Hgone as (Hgone & Hfresh & Hresp). split_and!; [done..|].
  intros pcm_b64. unfold WhisperServer._handle_audio. cbn [AudioCommand.session_id].
  by rewrite Hgone.
Qed.

Lemma stop_ends_the_session_witness :
  WhisperServer.sessions
    (snd (WhisperServer._handle_stop StandIn.model_reset_states StandIn.transcribe_ok
            StandIn.registered_A (StopCommand.mk (py "A")))) !! py "A" = None.
Proof.
  apply (proj2 (stop_ends_the_session StandIn.model_call StandIn.model_reset_states
                  StandIn.transcribe_ok StandIn.b64decode StandIn.registered_A
                  (StopCommand.mk (py "A"))) None).
  - vm_compute. eexists. reflexivity.
  - vm_compute. reflexivity.
Defined.

Section Reaches.
Import LocalAgreement.
Implicit Types (a b c : LocalAgreement.t).

Lemma reaches_refl a : reaches a a.
Proof. by exists []. Qed.

Lemma reaches_step a b (call : LocalAgreement.call) :
  reaches a b -> is_reset call = false -> reaches a (step b call).
Proof.
  intros (calls & Hcalls & ->) Hcall. exists (calls ++ [call]). split.
  - apply Forall_app; split; [done | by constructor].
  - unfold run. by rewrite foldl_snoc.
Qed.

Lemma reaches_process a b text r c :
  reaches a b -> process b text = (r, c) -> reaches a c.
Proof.
  intros Hab Hp. replace c with (step b (Process text)) by (cbn; by rewrite Hp).
  by apply reaches_step.
Qed.

Lemma reaches_force_commit a b r c :
  reaches a b -> force_commit b = (r, c) -> reaches a c.
Proof.
  intros Hab Hp. replace c with (step b ForceCommit) by (cbn; by rewrite Hp).
  by apply reaches_step.
Qed.

Lemma reaches_committed_length a b :
  0 <= min_new_chars a -> reaches a b ->
  len (committed_prefix a) <= len (committed_prefix b)
  /\ (k b, n b, min_new_chars b) = (k a, n a, min_new_chars a).
Proof.
  intros Hmin (calls & Hcalls & ->).
  induction calls as [|call calls IH] using rev_ind; [done|].
  apply Forall_app in Hcalls as [Hcalls Hcall]. apply Forall_cons in Hcall as [Hcall _].
  unfold run in *. rewrite foldl_snoc. destruct (IH Hcalls) as [IHlen [= IHk IHn IHmin]].
  rewrite step_k, step_n, step_min_new_chars, IHk, IHn, IHmin. split; [|done].
  destruct (step_committed_length (foldl step a calls) call) as [->|]; [lia|done|done|lia].
Qed.
End Reaches.

Section AudioStabilizer.
Import WhisperServer.
Context {model_state : Type}.
Variable model_call : model_state -> list Q -> Z -> option Q * model_state.
Variable model_reset_states : model_state -> model_state.
Variable transcribe : list Q -> option (list N) -> option (list N) -> option TranscriptionResult.t.
Variable b64decode : list N -> list byte + list N.
Implicit Types (self : @WhisperServer.t model_state).

Local Abbreviation handle_audio :=
  (_handle_audio model_call model_reset_states transcribe b64decode).

Lemma handle_audio_reaches self cmd session :
  sessions self !! AudioCommand.session_id cmd = Some session ->
  exists session',
    sessions (snd (handle_audio self cmd)) !! AudioCommand.session_id cmd = Some session'
    /\ reaches (Session.agreement session) (Session.agreement session').
Proof.
  intros Hs. unfold _handle_audio. rewrite Hs.
  repeat (case_match; try done); subst; cbn [snd];
    try (eexists; split; [exact Hs | apply reaches_refl]);
    (eexists; split; [cbn; rewrite ?lookup_insert_eq; reflexivity|]);
    cbn [Session.agreement Session.set_agreement Session.set_audio_buffer];
    simplify_eq/=;
    eauto 6 using reaches_refl, reaches_process, reaches_force_commit.
Qed.
End AudioStabilizer.

(** X20.  An Audio command drives the stabilizer of its session through
    [process] and [force_commit] calls only, never [reset]: whether the
    handler returns or raises, the session is still registered, the
    stabilizer's settings are the same and, with minNewChars >= 0, its
    committed prefix is at least as long as before. *)
Theorem audio_never_shortens_commit {model_state : Type}
    (model_call : model_state -> list Q -> Z -> option Q * model_state)
    (model_reset_states : model_state -> model_state)
    (transcribe : list Q -> option (list N) -> option (list N) -> option TranscriptionResult.t)
    (b64decode : list N -> list byte + list N)
    (self : @WhisperServer.t model_state) (cmd : AudioCommand.t) (session : Session.t) :
  let sid := AudioCommand.session_id cmd in
  let self' :=
    snd (WhisperServer._handle_audio model_call model_reset_states transcribe b64decode
           self cmd) in
  WhisperServer.sessions self !! sid = Some session ->
  0 <= LocalAgreement.min_new_chars (Session.agreement session) ->
  exists session',
    WhisperServer.sessions self' !! sid = Some session'
    /\ reaches (Session.agreement session) (Session.agreement session')
    /\ len (LocalAgreement.committed_prefix (Session.agreement session))
       <= len (LocalAgreement.committed_prefix (Session.agreement session'))
    /\ LocalAgreement.min_new_chars (Session.agreement session')
       = LocalAgreement.min_new_chars (Session.agreement session).
Proof.
  intros sid self' Hs Hmin.
  destruct (handle_audio_reaches model_call model_reset_states transcribe b64decode
              self cmd session Hs) as (session' & Hs' & Hreach).
  exists session'. split_and!; [done | done | |].
  - by apply reaches_committed_length.
  - by destruct (reaches_committed_length _ _ Hmin Hreach) as [_ [= _ _ ->]].
Qed.

Lemma audio_never_shortens_commit_witness :
  exists session',
    WhisperServer.sessions
      (snd (WhisperServer._handle_audio StandIn.model_call StandIn.model_reset_states
              StandIn.transcribe_ok StandIn.b64decode StandIn.registered_A
              (AudioCommand.mk (py "A") (py "AAAA")))) !! py "A" = Some session'
    /\ len (LocalAgreement.committed_prefix (LocalAgreement.init 3 2 10))
       <= len (LocalAgreement.committed_prefix (Session.agreement session')).
Proof.
  destruct (audio_never_shortens_commit StandIn.model_call StandIn.model_reset_states
              StandIn.transcribe_ok StandIn.b64decode StandIn.registered_A
              (AudioCommand.mk (py "A") (py "AAAA"))
              (Session.mk (py "A") (py "en-US") [] [] [] (LocalAgreement.init 3 2 10)
                 [] true 0)
              ltac:(reflexivity) ltac:(cbn; lia))
    as (session' & Hs & _ & Hlen & _).
  exists session'. split; [exact Hs | exact Hlen].
Defined.



Lemma byte_to_N_bound (b : byte) : (Byte.to_N b < 256)%N.
Proof. by destruct b. Qed.

Lemma frombuffer_int16_spec (fuel : nat) (pcm_bytes : list byte) :
  (length pcm_bytes <= fuel)%nat ->
  match frombuffer_int16 pcm_bytes with
  | Some samples =>
      length pcm_bytes = (2 * length samples)%nat
      /\ Forall (fun v => -32768 <= v < 32768) samples
  | None => Nat.Odd (length pcm_bytes)
  end.
Proof.
  revert pcm_bytes. induction fuel as [|fuel IH]; intros pcm_bytes Hfuel.
  { destruct pcm_bytes; [|cbn in Hfuel; lia]. cbn. split; [done | constructor]. }
  destruct pcm_bytes as [|lo [|hi rest]]; cbn [frombuffer_int16].
  - split; [done | constructor].
  - by exists 0%nat.
  - specialize (IH rest ltac:(cbn in Hfuel; lia)).
    destruct (frombuffer_int16 rest) as [samples|]; cbn [fmap option_fmap option_map].
    + destruct IH as [Hlen Hall]. split; [cbn; lia|].
      constructor; [|done].
      pose proof (byte_to_N_bound lo). pose proof (byte_to_N_bound hi).
      destruct (_ <? 32768) eqn:E; lia.
    + destruct IH as [m Hm]. exists (S m). cbn [length]. lia.
Qed.

(** X22.  [pcm_to_float32] fails exactly on a buffer with an odd number of
    bytes; on an even one it yields one sample for every two bytes, each in
    the range -1 <= sample < 1. *)
Theorem pcm_to_float32_samples (pcm_bytes : list byte) :
  match pcm_to_float32 pcm_bytes with
  | Some audio =>
      length pcm_bytes = (2 * length audio)%nat
      /\ Forall (fun sample => (-1 <= sample)%Q /\ (sample < 1)%Q) audio
  | None => Nat.Odd (length pcm_bytes)
  end.
Proof.
  unfold pcm_to_float32.
  pose proof (frombuffer_int16_spec (length pcm_bytes) pcm_bytes (Nat.le_refl _)) as H.
  destruct (frombuffer_int16 pcm_bytes) as [samples|]; cbn; [|done].
  destruct H as [Hlen Hall]. rewrite length_map. split; [done|].
  apply Forall_map. eapply Forall_impl; [exact Hall|].
  intros v Hv. cbn beta in Hv. unfold Qle, Qlt. cbn [Qnum Qden]. lia.
Qed.

(** X23.  The window handed to the engine is the tail of the buffer, never
    longer than 30 seconds (960000 bytes), and an even number of bytes
    whenever the buffer is: a buffer of whole samples always converts. *)
Theorem transcribe_window_bounded (audio_buffer : list byte) :
  let window := WhisperServer.transcribe_window audio_buffer in
  window `suffix_of` audio_buffer
  /\ len window = Z.min (len audio_buffer) 960000
  /\ (Nat.Even (length audio_buffer) -> is_Some (pcm_to_float32 window)).
Proof.
  cbn zeta. unfold WhisperServer.transcribe_window, WhisperServer._max_transcribe_samples.
  set (window := if _ >? _ then _ else _).
  assert (Hlen : len window = Z.min (len audio_buffer) 960000).
  { subst window. destruct (_ >? _) eqn:E; [|apply gtb_false_le in E; lia].
    unfold slice_from, slice_index, len in *. rewrite length_drop.
    destruct (_ <? 0) eqn:E'; lia. }
  split_and!; [|done|].
  - subst window. destruct (_ >? _); [apply suffix_drop | done].
  - intros [m Hm]. unfold pcm_to_float32.
    pose proof (frombuffer_int16_spec _ window (Nat.le_refl _)) as H.
    destruct (frombuffer_int16 window); [done|]. exfalso.
    destruct H as [m' Hm']. unfold len in Hlen. lia.
Qed.

Lemma transcribe_window_bounded_witness :
  is_Some (pcm_to_float32 (WhisperServer.transcribe_window [x01; x00; xff; x7f])).
Proof.
  apply (transcribe_window_bounded [x01; x00; xff; x7f]). by exists 2%nat.
Defined.

(** X24.  A line whose object lacks a required field (no session_id, or an
    AUDIO without pcm_b64) is answered with the Error response for an
    invalid command, and the server is left as it was. *)
Theorem missing_field_gets_error {model_state : Type}
    (model_call : model_state -> list Q -> Z -> option Q * model_state)
    (model_reset_states : model_state -> model_state)
    (transcribe : list Q -> option (list N) -> option (list N) -> option TranscriptionResult.t)
    (b64decode : list N -> list byte + list N)
    (K N_ MIN_CHARS : Z)
    (self : @WhisperServer.t model_state) (data : Data.t) :
  Data.session_id data = None
  \/ (cmd_is (Data.cmd data) (py "AUDIO") = true /\ Data.pcm_b64 data = None) ->
  parse_command (Object data) = Returned None
  /\ WhisperServer._process_command model_call model_reset_states transcribe b64decode
       K N_ MIN_CHARS self (Object data)
     = (Returned (Some (ErrorResponse (py "unknown") (py "Invalid command format"))), self).
Proof.
  intros Hmissing.
  assert (Hparse : parse_command (Object data) = Returned None).
  { unfold parse_command.
    destruct (cmd_is (Data.cmd data) (py "START")) eqn:Estart.
    { destruct Hmissing as [->|[Haudio _]]; [done|].
      unfold cmd_is in *. destruct (Data.cmd data) as [[]|]; try done.
      apply bool_decide_eq_true in Estart. apply bool_decide_eq_true in Haudio.
      rewrite Estart in Haudio. vm_compute in Haudio. discriminate. }
    destruct (cmd_is (Data.cmd data) (py "AUDIO")) eqn:Eaudio.
    { destruct Hmissing as [->|[_ ->]]; [done|]. by destruct (Data.session_id data). }
    destruct (cmd_is (Data.cmd data) (py "STOP")); [|done].
    by destruct Hmissing as [->|[? _]]. }
  split; [done|]. unfold WhisperServer._process_command. by rewrite Hparse.
Qed.

Lemma missing_field_gets_error_witness :
  parse_command (Object (Data.mk (Some (JStr (py "AUDIO"))) (Some (py "A"))
                           None None None None None))
  = Returned None.
Proof.
  apply (missing_field_gets_error StandIn.model_call StandIn.model_reset_states
           StandIn.transcribe_ok StandIn.b64decode 3 2 10 StandIn.started
           (Data.mk (Some (JStr (py "AUDIO"))) (Some (py "A")) None None None None None)).
  right. split; reflexivity.
Defined.

(** X25.  A line on which the handler raises ends the connection: nothing
    is written for it, the lines after it are never processed, and the
    server stays as the handler left it.  A line holding a JSON value that
    is not an object is such a line, and leaves the server untouched. *)
Theorem raising_line_ends_connection {model_state : Type}
    (model_call : model_state -> list Q -> Z -> option Q * model_state)
    (model_reset_states : model_state -> model_state)
    (transcribe : list Q -> option (list N) -> option (list N) -> option TranscriptionResult.t)
    (b64decode : list N -> list byte + list N)
    (K N_ MIN_CHARS : Z)
    (self : @WhisperServer.t model_state) (lines : list WhisperServer.line) :
  let process_command :=
    WhisperServer._process_command model_call model_reset_states transcribe b64decode
      K N_ MIN_CHARS in
  let handle_client :=
    WhisperServer._handle_client model_call model_reset_states transcribe b64decode
      K N_ MIN_CHARS in
  (forall line e,
     fst (process_command self line) = Raised e ->
     handle_client self (WhisperServer.Text line :: lines)
     = ([], snd (process_command self line)))
  /\ (forall v,
        process_command self (NotAnObject v) = (Raised AttributeError, self)
        /\ handle_client self (WhisperServer.Text (NotAnObject v) :: lines) = ([], self)).
Proof.
  cbn zeta. split.
  - intros line e Hraise. cbn [WhisperServer._handle_client].
    destruct (WhisperServer._process_command _ _ _ _ _ _ _ self line) as [r self'].
    cbn in Hraise. by subst r.
  - done.
Qed.

Lemma raising_line_ends_connection_witness :
  StandIn.handle_client_failing StandIn.registered_A
    [WhisperServer.Text (StandIn.line_audio "A"); WhisperServer.Text (StandIn.line_stop "A")]
  = ([], snd (StandIn.process_command_failing StandIn.registered_A (StandIn.line_audio "A"))).
Proof.
  apply (proj1 (raising_line_ends_connection StandIn.model_call StandIn.model_reset_states
                  StandIn.transcribe_raises StandIn.b64decode 3 2 10 StandIn.registered_A
                  [WhisperServer.Text (StandIn.line_stop "A")])
           (StandIn.line_audio "A") ExternalError).
  vm_compute. reflexivity.
Defined.

(** X26.  Every response names the session its command was addressed to:
    whatever a parsed command is answered with carries that command's
    session id. *)
Theorem response_names_its_session {model_state : Type}
    (model_call : model_state -> list Q -> Z -> option Q * model_state)
    (model_reset_states : model_state -> model_state)
    (transcribe : list Q -> option (list N) -> option (list N) -> option TranscriptionResult.t)
    (b64decode : list N -> list byte + list N)
    (K N_ MIN_CHARS : Z)
    (self : @WhisperServer.t model_state) (line : loads) (cmd : Command)
    (response : Response) :
  parse_command line = Returned (Some cmd) ->
  fst (WhisperServer._process_command model_call model_reset_states transcribe b64decode
         K N_ MIN_CHARS self line) = Returned (Some response) ->
  response_session_id response = addressed_session cmd.
Proof.
  intros Hparse. unfold WhisperServer._process_command. rewrite Hparse.
  destruct cmd as [c|c|c]; cbn [addressed_session].
  - cbn. by intros [= <-].
  - unfold WhisperServer._handle_audio.
    repeat (case_match; try done); subst; cbn [fst]; intros Heq; by simplify_eq/=.
  - unfold WhisperServer._handle_stop.
    repeat (case_match; try done); subst; cbn [fst]; intros Heq; by simplify_eq/=.
Qed.

Lemma response_names_its_session_witness :
  response_session_id (ReadyResponse (py "A")) = py "A".
Proof.
  apply (response_names_its_session StandIn.model_call StandIn.model_reset_states
           StandIn.transcribe_ok StandIn.b64decode 3 2 10 StandIn.started
           (StandIn.line_start "A")
           (Start (StartCommand.mk (py "A") (py "en-US") [] [] []))
           (ReadyResponse (py "A")));
    reflexivity.
Defined.

Example merge_overlap :
  _merge_text (py "the quick brown") (py "quick brown fox") = py "the quick brown fox".
Proof. reflexivity. Qed.
Example merge_disjoint :
  _merge_text (py "hello") (py "world") = py "hello world".
Proof. reflexivity. Qed.
Example merge_all_overlap :
  _merge_text (py "a b") (py "b") = py "a b ".
Proof. reflexivity. Qed.

Section MergeText.
Implicit Types (s prev new word : list N) (words : list (list N)).

Lemma split_from_sep a c b word :
  isspace c = true ->
  split_from (a ++ c :: b) word = split_from a word ++ split_from b [].
Proof.
  intros Hc. revert word. induction a as [|x a IH]; intros word; cbn.
  - rewrite Hc. by destruct word.
  - destruct (isspace x); [|apply IH].
    destruct word; cbn; by rewrite IH.
Qed.

Lemma split_from_word w rest word :
  Forall (fun c => isspace c = false) w ->
  split_from (w ++ rest) word = split_from rest (word ++ w).
Proof.
  intros Hw. revert word. induction Hw as [|c w Hc _ IH]; intros word; cbn.
  - by rewrite app_nil_r.
  - rewrite Hc, IH. by rewrite <- app_assoc.
Qed.

Lemma split_from_words s word :
  Forall (fun c => isspace c = false) word -> Forall is_word (split_from s word).
Proof.
  revert word. induction s as [|c s IH]; intros word Hword; cbn.
  - destruct word as [|x word]; [constructor|].
    constructor; [by split | constructor].
  - destruct (isspace c) eqn:Hc.
    + destruct word as [|x word]; [by apply IH|].
      constructor; [by split | by apply IH].
    + apply IH, Forall_app. split; [done|]. constructor; [done | constructor].
Qed.

Lemma split_words s : Forall is_word (split s).
Proof. by apply split_from_words. Qed.

Lemma split_word w : is_word w -> split w = [w].
Proof.
  intros [Hne Hw]. unfold split.
  rewrite <- (app_nil_r w) at 1. rewrite split_from_word by done. cbn. by destruct w.
Qed.

Lemma split_join words : Forall is_word words -> split (join [SPACE] words) = words.
Proof.
  induction 1 as [|w words Hw Hwords IH]; [done|].
  destruct words as [|w' words]; [by apply split_word|].
  change (join [SPACE] (w :: w' :: words)) with (w ++ SPACE :: join [SPACE] (w' :: words)).
  unfold split in *. rewrite split_from_sep by done.
  fold (split w). by rewrite split_word, IH.
Qed.

Lemma split_space_app a b : split (a ++ [SPACE] ++ b) = split a ++ split b.
Proof. unfold split. cbn [app]. by rewrite split_from_sep. Qed.

Lemma slice_from_last {A} (l : list A) (j : nat) :
  (0 < j <= length l)%nat -> slice_from (- Z.of_nat j) l = drop (length l - j) l.
Proof.
  intros Hj. unfold slice_from, slice_index.
  destruct (Z.ltb_spec (- Z.of_nat j) 0); [|lia]. f_equal. lia.
Qed.

Lemma slice_to_nat {A} (l : list A) (j : nat) : slice_to (Z.of_nat j) l = take j l.
Proof.
  unfold slice_to, slice_index. destruct (Z.ltb_spec (Z.of_nat j) 0); [lia|].
  destruct (decide (j <= length l)%nat).
  - f_equal. lia.
  - rewrite !take_ge by lia. done.
Qed.

Lemma slice_from_nat {A} (l : list A) (j : nat) : slice_from (Z.of_nat j) l = drop j l.
Proof.
  unfold slice_from, slice_index. destruct (Z.ltb_spec (Z.of_nat j) 0); [lia|].
  destruct (decide (j <= length l)%nat).
  - f_equal. lia.
  - rewrite !drop_ge by lia. done.
Qed.

Lemma merge_loop_words prev new (m : nat) :
  (m <= length (split prev))%nat ->
  exists j : nat,
    (j <= m)%nat
    /\ take j (split new) = drop (length (split prev) - j) (split prev)
    /\ (forall j' : nat, (j < j' <= m)%nat ->
          take j' (split new) <> drop (length (split prev) - j') (split prev))
    /\ prev `prefix_of` merge_loop prev new (split prev) (split new) m
    /\ split (merge_loop prev new (split prev) (split new) m)
       = split prev ++ drop j (split new).
Proof.
  induction m as [|m IH]; intros Hm.
  { exists 0%nat. cbn [merge_loop]. split_and!; [done| |lia| |].
    - by rewrite Nat.sub_0_r, drop_all.
    - by apply prefix_app_r.
    - by rewrite split_space_app, drop_0. }
  cbn [merge_loop].
  rewrite slice_from_last, slice_to_nat, slice_from_nat by lia. case_bool_decide as Heq.
  - exists (S m). split_and!; [done | done | lia | by apply prefix_app_r |].
    rewrite split_space_app, split_join; [done|].
    apply Forall_drop, split_words.
  - destruct (IH ltac:(lia)) as (j & Hj & Htake & Hmax & Hpre & Hsplit).
    exists j. split_and!; [lia | done | | done | done].
    intros j' Hj'. destruct (decide (j' = S m)) as [->|]; [done|]. apply Hmax. lia.
Qed.
End MergeText.

(** X27.  [_merge_text] never rewrites what was already there and never
    loses a word: merging into an empty text gives the new text, merging an
    empty text changes nothing, and otherwise the old text is a prefix of
    the result, whose words are the old words followed by the new words
    without their first [j], where [j] is the longest overlap of at most five
    words between the end of the old words and the start of the new ones. *)
Theorem merge_text_words (prev new : list N) :
  _merge_text [] new = new
  /\ _merge_text prev [] = prev
  /\ (prev <> [] -> new <> [] ->
      prev `prefix_of` _merge_text prev new
      /\ exists j : nat,
           (j <= 5)%nat /\ (j <= length (split prev))%nat
           /\ take j (split new) = drop (length (split prev) - j) (split prev)
           /\ (forall j' : nat, (j < j' <= 5)%nat -> (j' <= length (split prev))%nat ->
                 take j' (split new) <> drop (length (split prev) - j') (split prev))
           /\ split (_merge_text prev new) = split prev ++ drop j (split new)).
Proof.
  split_and!; [done | by destruct prev |].
  intros Hprev Hnew. unfold _merge_text.
  destruct prev as [|p prev]; [done|]. destruct new as [|c new]; [done|].
  set (old := p :: prev) in *. set (fresh := c :: new) in *.
  destruct (merge_loop_words old fresh (Nat.min 5 (length (split old))) ltac:(lia))
    as (j & Hj & Htake & Hmax & Hpre & Hsplit).
  split; [done|]. exists j. split_and!; [lia | lia | done | | done].
  intros j' Hj' Hlen. apply Hmax. lia.
Qed.

Lemma merge_text_words_witness :
  py "the quick brown" `prefix_of` _merge_text (py "the quick brown") (py "quick brown fox").
Proof.
  apply (proj2 (proj2 (merge_text_words (py "the quick brown") (py "quick brown fox"))));
    discriminate.
Defined.

(** X28.  When [process] returns a final result and N is positive, the
    agreement was computed on exactly the N most recent hypotheses, the last
    of which is the one just passed in. *)
Theorem final_agreement_window (self : LocalAgreement.t) (text : list N) :
  AgreementResult.is_final (fst (LocalAgreement.process self text)) = true ->
  0 < LocalAgreement.n self ->
  let history := LocalAgreement.history (snd (LocalAgreement.process self text)) in
  let window := slice_from (- LocalAgreement.n self) history in
  len window = LocalAgreement.n self
  /\ window `suffix_of` history
  /\ last window = Some text.
Proof.
  intros Hfinal Hn. revert Hfinal.
  destruct (process_cases self text) as [[-> _]|[-> [Hlen _]]]; [done|]. intros _.
  cbn [snd LocalAgreement.history LocalAgreement.set_committed_prefix
       LocalAgreement.set_history].
  set (kept := if _ >? _ then _ else _) in *. cbn zeta.
  assert (Hslice : slice_from (- LocalAgreement.n self) kept
                   = drop (length kept - Z.to_nat (LocalAgreement.n self)) kept).
  { rewrite <- (Z2Nat.id (LocalAgreement.n self)) at 1 by lia.
    apply slice_from_last. unfold len in Hlen. lia. }
  rewrite Hslice. split_and!.
  - unfold len in *. rewrite length_drop. lia.
  - apply suffix_drop.
  - destruct (kept_last (LocalAgreement.history self) text (LocalAgreement.k self))
      as [Hnil|Hlast]; fold kept in Hnil || fold kept in Hlast.
    + rewrite Hnil in Hlen. unfold len in Hlen. cbn in Hlen. lia.
    + rewrite <- (take_drop (length kept - Z.to_nat (LocalAgreement.n self)) kept) in Hlast.
      rewrite last_app in Hlast.
      destruct (last (drop _ kept)) eqn:E; [done|].
      apply last_None in E. apply (f_equal length) in E.
      rewrite length_drop in E. unfold len in Hlen. cbn in E. lia.
Qed.

Lemma final_agreement_window_witness :
  let self := snd (LocalAgreement.process (LocalAgreement.init 3 2 5) (py "Hello world is")) in
  let history :=
    LocalAgreement.history (snd (LocalAgreement.process self (py "Hello world is here"))) in
  let window := slice_from (- LocalAgreement.n self) history in
  len window = LocalAgreement.n self
  /\ window `suffix_of` history
  /\ last window = Some (py "Hello world is here").
Proof.
  apply (final_agreement_window
           (snd (LocalAgreement.process (LocalAgreement.init 3 2 5) (py "Hello world is")))
           (py "Hello world is here")).
  - reflexivity.
  - reflexivity.
Defined.
